(** * homebridge-http-ceiling-fan-remote: command encoding and dispatch

    A shallow embedding of [src/accessory.ts]: the construction of the
    RF-bridge URL in [sendCommand], and the single-flight command queue
    ([addCommand], [runNextCommand] and the completion handler of the
    HTTP request).

    JavaScript strings are [string]; the numbers that reach [sendCommand]
    are entries of the command tables, hence integers, and are modelled
    by [Z]; characteristic values and the indices derived from them are
    IEEE binary64 numbers and are modelled by primitive floats. The
    accessory object and the part of its environment that the claims
    talk about (outstanding HTTP requests, request history, log) are one
    record that every method threads explicitly. *)

From Stdlib Require Import ZArith Lia List Bool Ascii String Permutation.
From Stdlib Require Import Floats.PrimFloat Floats.FloatOps Floats.SpecFloat.
From Stdlib Require Import Floats.FloatAxioms.
Import ListNotations.

#[local] Set Warnings "-inexact-float".

Local Open Scope string_scope.
Local Open Scope Z_scope.

(* ================================================================= *)
(** ** JavaScript string primitives used by [sendCommand] *)

(** [n] copies of the character [c]. *)
Fixpoint fill (c : ascii) (n : nat) : string :=
  match n with
  | O => EmptyString
  | S k => String c (fill c k)
  end.

(** The first [n] characters of [s] (all of [s] when it is shorter). *)
Fixpoint prefix_of (n : nat) (s : string) : string :=
  match n, s with
  | S k, String c r => String c (prefix_of k r)
  | _, _ => EmptyString
  end.

(** [k] concatenated copies of [s]. *)
Fixpoint copies (k : nat) (s : string) : string :=
  match k with
  | O => EmptyString
  | S j => s ++ copies j s
  end.

(** [String.prototype.padStart(maxLength, fillString)]: a string that is
    already long enough is returned unchanged (never truncated), as is
    any string when the filler is empty; otherwise the filler is repeated
    and cut to the missing length, and put in front. *)
Definition padStart (maxLength : nat) (fillString : string) (s : string) : string :=
  let len := String.length s in
  if (maxLength <=? len)%nat then s
  else match fillString with
       | EmptyString => s
       | _ => prefix_of (maxLength - len) (copies (maxLength - len) fillString) ++ s
       end.

(** [s.replace(/c/g, by)] for a one-character pattern: every occurrence
    of [c], left to right, is replaced by [by]; the replacement text is
    not scanned again. *)
Fixpoint replace_all (c : ascii) (by_ : string) (s : string) : string :=
  match s with
  | EmptyString => EmptyString
  | String x r =>
      if Ascii.eqb x c then by_ ++ replace_all c by_ r
      else String x (replace_all c by_ r)
  end.

(** Binary digits of a positive number, most significant first. *)
Fixpoint bits_of_pos (p : positive) : string :=
  match p with
  | xH => "1"
  | xO q => bits_of_pos q ++ "0"
  | xI q => bits_of_pos q ++ "1"
  end.

(** [Number.prototype.toString(2)] on an integer: no leading zeros,
    ["0"] for zero, a minus sign in front of the magnitude of a negative
    number. *)
Definition toString2 (n : Z) : string :=
  match n with
  | Z0 => "0"
  | Zpos p => bits_of_pos p
  | Zneg p => "-" ++ bits_of_pos p
  end.

(** Reading a string of binary digits as a base-2 number, most
    significant digit first; [None] on any other character. *)
Fixpoint binary_value_from (acc : Z) (s : string) : option Z :=
  match s with
  | EmptyString => Some acc
  | String c r =>
      if Ascii.eqb c "0" then binary_value_from (2 * acc) r
      else if Ascii.eqb c "1" then binary_value_from (2 * acc + 1) r
      else None
  end.

Definition binary_value (s : string) : option Z :=
  match s with
  | EmptyString => None
  | _ => binary_value_from 0 s
  end.

(* ================================================================= *)
(** ** The payload built by [sendCommand] (lines 362-365) *)

(** [const room = `A0${this.remote.padStart(40, "0").replace(/0/g, "82").replace(/1/g, "A0")}82`] *)
Definition room (remote : string) : string :=
  "A0" ++ replace_all "1" "A0" (replace_all "0" "82" (padStart 40 "0" remote)) ++ "82".

(** [const rfrawCommand = `82${command.toString(2).padStart(10, "0").replace(/0/g, "82").replace(/1/g, "A0")}A0`] *)
Definition rfrawCommand (command : Z) : string :=
  "82" ++ replace_all "1" "A0" (replace_all "0" "82" (padStart 10 "0" (toString2 command))) ++ "A0".

(** [const rfrawInverseCommand = `A0${command.toString(2).padStart(10, "0").replace(/1/g, "82").replace(/0/g, "A0")}83`] *)
Definition rfrawInverseCommand (command : Z) : string :=
  "A0" ++ replace_all "0" "A0" (replace_all "1" "82" (padStart 10 "0" (toString2 command))) ++ "83".

(** The literal that follows [rfraw%20] in the template string of line 365. *)
Definition header : string := "AAB0580403018813E803106510808080808080808080808081".

Definition trailer : string := "55".

(** The raw waveform descriptor: everything after [rfraw%20]. *)
Definition descriptor (remote : string) (command : Z) : string :=
  header ++ room remote ++ rfrawCommand command ++ rfrawInverseCommand command ++ trailer.

(** [const target = `http://${this.rfbridge}/cm?cmnd=rfraw%20AAB0...81${room}${rfrawCommand}${rfrawInverseCommand}55`] *)
Definition target (rfbridge remote : string) (command : Z) : string :=
  "http://" ++ rfbridge ++ "/cm?cmnd=rfraw%20" ++ descriptor remote command.

(** The sub-expression [command.toString(2).padStart(10, "0")] shared by
    lines 363 and 364. *)
Definition encode10 (command : Z) : string := padStart 10 "0" (toString2 command).

(* ================================================================= *)
(** ** The encoding in the words of the specification

    These definitions follow the prose of the specification (sections
    4.1 and 4.2), not the source; they are what the source expressions
    above are compared with. *)

Definition flip_bit (c : ascii) : ascii :=
  if Ascii.eqb c "0" then "1"%char
  else if Ascii.eqb c "1" then "0"%char
  else c.

(** complement(bits): each [0] becomes [1] and each [1] becomes [0]. *)
Fixpoint complement (bits : string) : string :=
  match bits with
  | EmptyString => EmptyString
  | String c r => String (flip_bit c) (complement r)
  end.

(** One pass over the string in which the character [0] becomes the
    token [zero], the character [1] the token [one], and every other
    character stays. *)
Fixpoint substitute (zero one : string) (s : string) : string :=
  match s with
  | EmptyString => EmptyString
  | String c r =>
      (if Ascii.eqb c "0" then zero
       else if Ascii.eqb c "1" then one
       else String c EmptyString) ++ substitute zero one r
  end.

(** Leading zeros up to [width]. *)
Definition zero_padded (width : nat) (s : string) : string :=
  fill "0" (width - String.length s) ++ s.

(** Step 1: the room block. *)
Definition spec_room_block (address : string) : string :=
  "A0" ++ substitute "82" "A0" (zero_padded 40 address) ++ "82".

(** Step 2: the command block. *)
Definition spec_command_block (v : Z) : string :=
  "82" ++ substitute "82" "A0" (zero_padded 10 (toString2 v)) ++ "A0".

(** Step 3 read to the letter: the complement is computed first, and the
    swapped mapping ([1] to [82], [0] to [A0]) is applied to that
    complement. *)
Definition spec_inverse_block (v : Z) : string :=
  "A0" ++ substitute "A0" "82" (complement (zero_padded 10 (toString2 v))) ++ "83".

(** A string of decimal digits. *)
Definition is_digit (c : ascii) : bool :=
  let n := nat_of_ascii c in ((48 <=? n) && (n <=? 57))%nat.

Fixpoint all_digits (s : string) : bool :=
  match s with
  | EmptyString => true
  | String c r => is_digit c && all_digits r
  end.

(* ================================================================= *)
(** ** Values, queue entries and the accessory object *)

(** The run-time values that can reach [sendCommand]. A number is an
    entry of a command table, hence an integer. *)
Inductive JSValue : Type :=
| JSUndefined
| JSNull
| JSBoolean (b : bool)
| JSString (s : string)
| JSNumber (n : Z).

Definition typeof (v : JSValue) : string :=
  match v with
  | JSUndefined => "undefined"
  | JSNull => "object"
  | JSBoolean _ => "boolean"
  | JSString _ => "string"
  | JSNumber _ => "number"
  end.

(** [v === n] for a number literal [n]. *)
Definition strict_eq_number (v : JSValue) (n : Z) : bool :=
  match v with
  | JSNumber m => m =? n
  | _ => false
  end.

(** [interface Command { command: number; targetUrl: string }] *)
Record Command : Type := mkCommand {
  command : Z;
  targetUrl : string
}.

(** How the promise returned by [got] settles. *)
Inductive Outcome : Type :=
| Fulfilled (body : string)
| Rejected (error : string).

(** Callbacks handed to [setTimeout] by the SET handlers. *)
Inductive Timer : Type :=
| RevertRotationSpeed
| RevertBrightness.

(** The lines written to the log, by the call that writes them. *)
Inductive LogEntry : Type :=
| WarnMissingConfig (field : string)
| InfoInitialized
| InfoSetFanSpeed (speed : float)
| InfoSetBrightness (brightness : float)
| InfoSendCommand (c : Z)
| InfoQueued (c : Command)
| InfoResponse (c : Command) (body : string)
| WarnError (c : Command) (error : string)
| InfoTestMode (c : Command).

(** The fields of [CeilingFanRemote] that the methods below read or
    write, together with the environment they act on: [inflight] holds
    the [got] calls whose promise has not settled yet, [requests] every
    entry ever handed to [got] (oldest first), [timers] the scheduled
    callbacks and [logged] the log. *)
Record Accessory : Type := mkAccessory {
  verbose : bool;
  rfbridge : string;
  remote : string;
  fanSpeed : float;
  lightBrightness : float;
  pendingCommand : bool;
  commandQueue : list Command;
  inflight : list Command;
  requests : list Command;
  timers : list Timer;
  logged : list LogEntry
}.

Definition set_fanSpeed (x : float) (a : Accessory) : Accessory :=
  mkAccessory (verbose a) (rfbridge a) (remote a) x (lightBrightness a)
    (pendingCommand a) (commandQueue a) (inflight a) (requests a) (timers a) (logged a).

Definition set_lightBrightness (x : float) (a : Accessory) : Accessory :=
  mkAccessory (verbose a) (rfbridge a) (remote a) (fanSpeed a) x
    (pendingCommand a) (commandQueue a) (inflight a) (requests a) (timers a) (logged a).

Definition set_pendingCommand (b : bool) (a : Accessory) : Accessory :=
  mkAccessory (verbose a) (rfbridge a) (remote a) (fanSpeed a) (lightBrightness a)
    b (commandQueue a) (inflight a) (requests a) (timers a) (logged a).

Definition set_commandQueue (q : list Command) (a : Accessory) : Accessory :=
  mkAccessory (verbose a) (rfbridge a) (remote a) (fanSpeed a) (lightBrightness a)
    (pendingCommand a) q (inflight a) (requests a) (timers a) (logged a).

Definition set_inflight (l : list Command) (a : Accessory) : Accessory :=
  mkAccessory (verbose a) (rfbridge a) (remote a) (fanSpeed a) (lightBrightness a)
    (pendingCommand a) (commandQueue a) l (requests a) (timers a) (logged a).

(** [got(target)]: the request is started, and stays outstanding until
    its promise settles. *)
Definition got (c : Command) (a : Accessory) : Accessory :=
  mkAccessory (verbose a) (rfbridge a) (remote a) (fanSpeed a) (lightBrightness a)
    (pendingCommand a) (commandQueue a) (inflight a ++ [c]) (requests a ++ [c])
    (timers a) (logged a).

(** [setTimeout(callback, 100)] *)
Definition setTimeout (t : Timer) (a : Accessory) : Accessory :=
  mkAccessory (verbose a) (rfbridge a) (remote a) (fanSpeed a) (lightBrightness a)
    (pendingCommand a) (commandQueue a) (inflight a) (requests a)
    (timers a ++ [t]) (logged a).

(** [this.log.info(...)] / [this.log.warn(...)] *)
Definition log (e : LogEntry) (a : Accessory) : Accessory :=
  mkAccessory (verbose a) (rfbridge a) (remote a) (fanSpeed a) (lightBrightness a)
    (pendingCommand a) (commandQueue a) (inflight a) (requests a)
    (timers a) (logged a ++ [e]).

(* ================================================================= *)
(** ** Construction *)

(** The part of [AccessoryConfig] read by the constructor; a field that
    is absent from the configuration is [None]. *)
Record AccessoryConfig : Type := mkConfig {
  cfg_verbose : option bool;
  cfg_rfbridge : option string;
  cfg_remote : option string
}.

(** Truthiness of an optional string: absent and empty are falsy. *)
Definition truthy (o : option string) : bool :=
  match o with
  | None => false
  | Some EmptyString => false
  | Some _ => true
  end.

(** [o || d] *)
Definition or_else (o : option string) (d : string) : string :=
  match o with
  | Some s => if truthy o then s else d
  | None => d
  end.

(** Lines 111-124 and the field initialisers of lines 97-108. *)
Definition constructor (config : AccessoryConfig) : Accessory :=
  let warnings :=
    ((if truthy (cfg_rfbridge config) then [] else [WarnMissingConfig "rfbridge"]) ++
     (if truthy (cfg_remote config) then [] else [WarnMissingConfig "remote"]))%list in
  {| verbose := match cfg_verbose config with Some b => b | None => false end;
     rfbridge := or_else (cfg_rfbridge config) "test";
     remote := or_else (cfg_remote config) "test";
     fanSpeed := 1%float;
     lightBrightness := 8%float;
     pendingCommand := false;
     commandQueue := [];
     inflight := [];
     requests := [];
     timers := [];
     logged := (warnings ++ [InfoInitialized])%list |}.

(* ================================================================= *)
(** ** The command queue (lines 384-419) *)

(** [Array.prototype.pop]: the last element, if any, and the array
    without it. *)
Fixpoint pop {A : Type} (l : list A) : option A * list A :=
  match l with
  | [] => (None, [])
  | x :: r =>
      match r with
      | [] => (Some x, [])
      | _ :: _ => let (last, front) := pop r in (last, x :: front)
      end
  end.

(** [this.rfbridge === "test" || this.remote === "test"] *)
Definition test_mode (a : Accessory) : bool :=
  String.eqb (rfbridge a) "test" || String.eqb (remote a) "test".

(** [runNextCommand] up to the point where the promise chain is set up;
    the handlers of the chain run in [settle]. *)
Definition runNextCommand (a : Accessory) : Accessory :=
  if negb (pendingCommand a) then
    match pop (commandQueue a) with
    | (Some nextCommand, rest) =>
        let a1 := set_commandQueue rest a in
        if negb (test_mode a1) then
          got nextCommand (set_pendingCommand true a1)
        else
          log (InfoTestMode nextCommand) a1
    | (None, _) => a
    end
  else a.

(** [addCommand(command, targetUrl)] *)
Definition addCommand (c : Z) (url : string) (a : Accessory) : Accessory :=
  let entry := {| command := c; targetUrl := url |} in
  let a1 := set_commandQueue (commandQueue a ++ [entry])%list a in
  let a2 := log (InfoQueued entry) a1 in
  runNextCommand a2.

(** [sendCommand(command: number = -1)]: the default value replaces an
    [undefined] argument before the guard of line 358 is evaluated. *)
Definition sendCommand (arg : JSValue) (a : Accessory) : Accessory :=
  let cmd := match arg with JSUndefined => JSNumber (-1) | _ => arg end in
  if strict_eq_number cmd (-1) || negb (String.eqb (typeof cmd) "number") then
    a
  else
    match cmd with
    | JSNumber n =>
        let url := target (rfbridge a) (remote a) n in
        let a1 := if verbose a then log (InfoSendCommand n) a else a in
        addCommand n url a1
    | _ => a
    end.

(** The list without its [i]-th element. *)
Fixpoint drop_nth {A : Type} (i : nat) (l : list A) : list A :=
  match l, i with
  | [], _ => []
  | _ :: r, O => r
  | x :: r, S j => x :: drop_nth j r
  end.

(** The [.then] handler (line 401) on fulfilment, the [.catch] handler
    (line 404) on rejection. *)
Definition then_catch (c : Command) (o : Outcome) (a : Accessory) : Accessory :=
  match o with
  | Fulfilled body => if verbose a then log (InfoResponse c body) a else a
  | Rejected error => log (WarnError c error) a
  end.

(** The [.finally] handler (lines 406-409). *)
Definition finally (a : Accessory) : Accessory :=
  runNextCommand (set_pendingCommand false a).

(** The promise of the [i]-th outstanding request settles: [.then] or
    [.catch] runs according to the outcome, then [.finally]. [None] when
    there is no such request. *)
Definition settle (i : nat) (o : Outcome) (a : Accessory) : option Accessory :=
  match nth_error (inflight a) i with
  | None => None
  | Some c =>
      let a1 := set_inflight (drop_nth i (inflight a)) a in
      Some (finally (then_catch c o a1))
  end.

(* ================================================================= *)
(** ** The SET handlers of RotationSpeed and Brightness *)

Definition FAN_OFF : Z := 98.
Definition FAN_SPEED1 : Z := 4.
Definition FAN_SPEED2 : Z := 32.
Definition FAN_SPEED3 : Z := 64.
Definition LIGHT_OFF : Z := 266.
Definition LIGHT_BRIGHTNESS1 : Z := 10.
Definition LIGHT_BRIGHTNESS2 : Z := 11.
Definition LIGHT_BRIGHTNESS3 : Z := 12.
Definition LIGHT_BRIGHTNESS4 : Z := 13.
Definition LIGHT_BRIGHTNESS5 : Z := 14.
Definition LIGHT_BRIGHTNESS6 : Z := 15.
Definition LIGHT_BRIGHTNESS7 : Z := 72.
Definition LIGHT_BRIGHTNESS8 : Z := 73.

(** The [commands] array of lines 189-194. *)
Definition fan_commands : list Z :=
  [FAN_OFF; FAN_SPEED1; FAN_SPEED2; FAN_SPEED3].

(** The [commands] array of lines 262-272. *)
Definition light_commands : list Z :=
  [LIGHT_OFF; LIGHT_BRIGHTNESS1; LIGHT_BRIGHTNESS2; LIGHT_BRIGHTNESS3;
   LIGHT_BRIGHTNESS4; LIGHT_BRIGHTNESS5; LIGHT_BRIGHTNESS6;
   LIGHT_BRIGHTNESS7; LIGHT_BRIGHTNESS8].

(** [private readonly fanStep = 33.33] *)
Definition fanStep : float := 33.33%float.

(** The integer a binary64 number denotes, when it denotes one: the
    number is [(-1)^s * m * 2^e]. Zero of either sign is the integer 0;
    NaN, the infinities and numbers with a fractional part denote none. *)
Definition integer_of (f : float) : option Z :=
  match Prim2SF f with
  | S754_zero _ => Some 0
  | S754_finite s m e =>
      let magnitude :=
        if 0 <=? e then Some (Z.pos m * 2 ^ e)
        else if Z.pos m mod 2 ^ (- e) =? 0 then Some (Z.pos m / 2 ^ (- e))
        else None in
      match magnitude with
      | Some z => Some (if s then - z else z)
      | None => None
      end
  | S754_infinity _ => None
  | S754_nan => None
  end.

(** The array index a number selects in an array of length [len]: the
    property key of [arr[x]] is the string of [x], which names an element
    exactly when [x] is an integer with [0 <= x < len]. *)
Definition table_index (len : nat) (x : float) : option nat :=
  match integer_of x with
  | Some z => if (0 <=? z) && (z <? Z.of_nat len) then Some (Z.to_nat z) else None
  | None => None
  end.

(** [commands[x]]: the element, or [undefined] when [x] names none. *)
Definition array_get (commands : list Z) (x : float) : JSValue :=
  match table_index (List.length commands) x with
  | Some i =>
      match nth_error commands i with
      | Some c => JSNumber c
      | None => JSUndefined
      end
  | None => JSUndefined
  end.

(** RotationSpeed SET (lines 169-198). *)
Definition setRotationSpeed (value : float) (a : Accessory) : Accessory :=
  let newSpeed := (value / fanStep)%float in
  let a1 :=
    if (newSpeed =? 0)%float then setTimeout RevertRotationSpeed a
    else log (InfoSetFanSpeed newSpeed) (set_fanSpeed newSpeed a) in
  sendCommand (array_get fan_commands newSpeed) a1.

(** Brightness SET (lines 243-276). *)
Definition setBrightness (value : float) (a : Accessory) : Accessory :=
  let newBrightness := (value / 12)%float in
  let a1 :=
    if (newBrightness =? 0)%float then setTimeout RevertBrightness a
    else log (InfoSetBrightness newBrightness) (set_lightBrightness newBrightness a) in
  sendCommand (array_get light_commands newBrightness) a1.

(* ================================================================= *)
(** ** Runs of the accessory *)

(** What can happen to an accessory: a call of one of its methods, a SET
    event from HomeKit, or the settling of an outstanding request. *)
Inductive Event : Type :=
| CallSendCommand (arg : JSValue)
| CallAddCommand (c : Z) (url : string)
| CallRunNextCommand
| SetRotationSpeed (value : float)
| SetBrightness (value : float)
| Settle (i : nat) (o : Outcome).

Definition step (a : Accessory) (e : Event) : option Accessory :=
  match e with
  | CallSendCommand arg => Some (sendCommand arg a)
  | CallAddCommand c url => Some (addCommand c url a)
  | CallRunNextCommand => Some (runNextCommand a)
  | SetRotationSpeed value => Some (setRotationSpeed value a)
  | SetBrightness value => Some (setBrightness value a)
  | Settle i o => settle i o a
  end.

(** The state after a sequence of events; [None] when the sequence asks
    for the settling of a request that is not outstanding. *)
Fixpoint run (a : Accessory) (events : list Event) : option Accessory :=
  match events with
  | [] => Some a
  | e :: rest =>
      match step a e with
      | Some a' => run a' rest
      | None => None
      end
  end.

(** The commands handed to the transport, in the order of the calls. *)
Definition dispatched (a : Accessory) : list Z := map command (requests a).

(* ================================================================= *)
(** ** Predicates on accessory states *)

(** The flag and the outstanding requests agree: while the flag is set
    exactly one request is outstanding (and the accessory is not in test
    mode), while it is clear none is. *)
Definition single_flight (a : Accessory) : bool :=
  if pendingCommand a then
    Nat.eqb (List.length (inflight a)) 1 && negb (test_mode a)
  else
    Nat.eqb (List.length (inflight a)) 0.

(** Nothing to send and nothing being sent. *)
Definition quiescent (a : Accessory) : bool :=
  negb (pendingCommand a) &&
  Nat.eqb (List.length (commandQueue a)) 0 &&
  Nat.eqb (List.length (inflight a)) 0.

(** An idle accessory has nothing queued: every enqueue and every
    completion ends with a drain attempt. *)
Definition drained_when_idle (a : Accessory) : Prop :=
  pendingCommand a = false -> commandQueue a = [].

(** An accessory in test mode has never called the transport. *)
Definition silent_in_test_mode (a : Accessory) : Prop :=
  test_mode a = true -> requests a = [].

Definition invariant (a : Accessory) : Prop :=
  single_flight a = true /\ drained_when_idle a /\ silent_in_test_mode a.

(** The queue, the flag and the transport are as they were. *)
Definition same_dispatch_state (a a' : Accessory) : Prop :=
  commandQueue a' = commandQueue a /\
  pendingCommand a' = pendingCommand a /\
  inflight a' = inflight a /\
  requests a' = requests a.

(** A configuration field that puts the accessory in test mode: absent,
    or equal to the reserved value. *)
Definition selects_test_mode (field : option string) : bool :=
  match field with
  | None => true
  | Some s => String.eqb s "test"
  end.

(** A configuration with both fields set, used for concrete runs. *)
Definition sample_config : AccessoryConfig :=
  {| cfg_verbose := None; cfg_rfbridge := Some "bridge"; cfg_remote := Some "0" |}.

(* ================================================================= *)
(** ** Further definitions: strings of binary digits, the whole command
    table *)

(** Every character is [0] or [1]. *)
Fixpoint is_binary (s : string) : bool :=
  match s with
  | EmptyString => true
  | String c r => (Ascii.eqb c "0" || Ascii.eqb c "1") && is_binary r
  end.

(** The entries of [CeilingFanRemote.COMMANDS] (lines 54-87) that the
    handlers do not use. *)
Definition FAN_TOGGLE : Z := 35.
Definition FAN_SPEED_DECREASE : Z := 514.
Definition FAN_SPEED_INCREASE : Z := 513.
Definition FAN_SPEED_MIN : Z := 2.
Definition FAN_SPEED_MAX : Z := 66.
Definition LIGHT_ON : Z := 138.
Definition LIGHT_TOGGLE : Z := 768.
Definition LIGHT_BRIGHTNESS_DECREASE : Z := 265.
Definition LIGHT_BRIGHTNESS_INCREASE : Z := 137.
Definition LIGHT_BRIGTHNESS_MIN : Z := 9.
Definition LIGHT_BRIGHTNESS_MAX : Z := 74.
Definition RECEIVER_TOGGLE_DIMMING : Z := 5.
Definition RECEIVER_PAIR_REMOTE : Z := 65.

(** All of [COMMANDS], in the order of the source. *)
Definition COMMANDS : list Z :=
  [FAN_OFF; FAN_TOGGLE; FAN_SPEED1; FAN_SPEED2; FAN_SPEED3;
   FAN_SPEED_DECREASE; FAN_SPEED_INCREASE; FAN_SPEED_MIN; FAN_SPEED_MAX;
   LIGHT_ON; LIGHT_OFF; LIGHT_TOGGLE;
   LIGHT_BRIGHTNESS1; LIGHT_BRIGHTNESS2; LIGHT_BRIGHTNESS3; LIGHT_BRIGHTNESS4;
   LIGHT_BRIGHTNESS5; LIGHT_BRIGHTNESS6; LIGHT_BRIGHTNESS7; LIGHT_BRIGHTNESS8;
   LIGHT_BRIGHTNESS_DECREASE; LIGHT_BRIGHTNESS_INCREASE;
   LIGHT_BRIGTHNESS_MIN; LIGHT_BRIGHTNESS_MAX;
   RECEIVER_TOGGLE_DIMMING; RECEIVER_PAIR_REMOTE].

(** The number of characters other than [0] and [1]. *)
Fixpoint count_other (s : string) : nat :=
  match s with
  | EmptyString => O
  | String c r =>
      if Ascii.eqb c "0" || Ascii.eqb c "1" then count_other r
      else S (count_other r)
  end.

(* ================================================================= *)
(** ** Further definitions: reading the log, comparing runs *)

(** The entries that [addCommand] logged as queued, oldest first. *)
Fixpoint queued_of (l : list LogEntry) : list Command :=
  match l with
  | [] => []
  | InfoQueued c :: r => c :: queued_of r
  | _ :: r => queued_of r
  end.

(** The entries that [runNextCommand] logged as sent in test mode. *)
Fixpoint test_sent_of (l : list LogEntry) : list Command :=
  match l with
  | [] => []
  | InfoTestMode c :: r => c :: test_sent_of r
  | _ :: r => test_sent_of r
  end.

(** Every queued entry is accounted for: handed to the transport, logged
    as sent in test mode, or still in the queue. *)
Definition conserved (a : Accessory) : Prop :=
  Permutation (queued_of (logged a))
              (requests a ++ test_sent_of (logged a) ++ commandQueue a)%list.

(** An event without the outcome of the request it settles. *)
Definition forget_outcome (e : Event) : Event :=
  match e with
  | Settle i _ => Settle i (Fulfilled EmptyString)
  | _ => e
  end.

(** Two accessories that differ at most in the verbosity flag and in the
    log. *)
Definition agree (a b : Accessory) : Prop :=
  rfbridge a = rfbridge b /\ remote a = remote b /\
  fanSpeed a = fanSpeed b /\ lightBrightness a = lightBrightness b /\
  pendingCommand a = pendingCommand b /\ commandQueue a = commandQueue b /\
  inflight a = inflight b /\ requests a = requests b /\
  timers a = timers b.

(** The outcome of two runs agrees: both are impossible, or both end in
    accessories that agree. *)
Definition agree_option (x y : option Accessory) : Prop :=
  match x, y with
  | Some a, Some b => agree a b
  | None, None => True
  | _, _ => False
  end.

(* ================================================================= *)
(** ** Further definitions: the remaining handlers and the timers *)

(** The log lines of the handlers below. *)
Inductive HandlerLog : Type :=
| InfoGetActive (current : bool)
| InfoSetActive (value : bool)
| InfoGetSpeed (current : float)
| InfoGetOn (current : bool)
| InfoSetOn (value : bool)
| InfoGetBrightness (current : float)
| InfoRevertSpeed (speed : float)
| InfoRevertBrightness (brightness : float).

(** The accessory with the two fields that only the Active and On
    handlers use ([fanOn], [lightOn], lines 97 and 101), and the log
    lines of these handlers and of the GET handlers. *)
Record Plugin : Type := mkPlugin {
  core : Accessory;
  fanOn : bool;
  lightOn : bool;
  handler_log : list HandlerLog
}.

(** A method of the accessory, run on the plugin. *)
Definition on_core (f : Accessory -> Accessory) (p : Plugin) : Plugin :=
  {| core := f (core p); fanOn := fanOn p; lightOn := lightOn p;
     handler_log := handler_log p |}.

(** The plugin after its constructor (lines 97-124). *)
Definition new_plugin (config : AccessoryConfig) : Plugin :=
  {| core := constructor config; fanOn := false; lightOn := false;
     handler_log := [] |}.

(** Active SET (lines 140-154). *)
Definition setActive (value : bool) (p : Plugin) : Plugin :=
  let arg := if value then array_get fan_commands (fanSpeed (core p))
             else JSNumber FAN_OFF in
  {| core := sendCommand arg (core p);
     fanOn := value;
     lightOn := lightOn p;
     handler_log := (handler_log p ++ [InfoSetActive value])%list |}.

(** On SET (lines 221-229). *)
Definition setOn (value : bool) (p : Plugin) : Plugin :=
  let arg := JSNumber (if value then LIGHT_ON else LIGHT_OFF) in
  {| core := sendCommand arg (core p);
     fanOn := fanOn p;
     lightOn := value;
     handler_log := (handler_log p ++ [InfoSetOn value])%list |}.

(** Active GET (lines 136-139): the value handed to the callback, and
    the plugin with the line logged. *)
Definition getActive (p : Plugin) : bool * Plugin :=
  (fanOn p,
   {| core := core p; fanOn := fanOn p; lightOn := lightOn p;
      handler_log := (handler_log p ++ [InfoGetActive (fanOn p)])%list |}).

(** RotationSpeed GET (lines 162-168). *)
Definition getRotationSpeed (p : Plugin) : float * Plugin :=
  ((fanSpeed (core p) * fanStep)%float,
   {| core := core p; fanOn := fanOn p; lightOn := lightOn p;
      handler_log := (handler_log p ++ [InfoGetSpeed (fanSpeed (core p))])%list |}).

(** On GET (lines 214-220). *)
Definition getOn (p : Plugin) : bool * Plugin :=
  (lightOn p,
   {| core := core p; fanOn := fanOn p; lightOn := lightOn p;
      handler_log := (handler_log p ++ [InfoGetOn (lightOn p)])%list |}).

(** Brightness GET (lines 236-242). *)
Definition getBrightness (p : Plugin) : float * Plugin :=
  ((lightBrightness (core p) * 12)%float,
   {| core := core p; fanOn := fanOn p; lightOn := lightOn p;
      handler_log :=
        (handler_log p ++ [InfoGetBrightness (lightBrightness (core p))])%list |}).

(** What a timer callback posts with [updateCharacteristic]. *)
Inductive Update : Type :=
| UpdateRotationSpeed (value : float)
| UpdateActive (value : bool)
| UpdateBrightness (value : float)
| UpdateOn (value : bool).

(** The callback of lines 178-182 or 251-255, on the state at the time
    it runs: the verbose log line and the two characteristic updates. *)
Definition callback (t : Timer) (p : Plugin) : list Update * list HandlerLog :=
  match t with
  | RevertRotationSpeed =>
      ([UpdateRotationSpeed (fanSpeed (core p) * fanStep)%float; UpdateActive false],
       if verbose (core p) then [InfoRevertSpeed (fanSpeed (core p))] else [])
  | RevertBrightness =>
      ([UpdateBrightness (lightBrightness (core p)); UpdateOn false],
       if verbose (core p) then [InfoRevertBrightness (lightBrightness (core p))]
       else [])
  end.

(** The oldest scheduled timer fires (all timers have the same delay):
    what its callback posts, and the plugin without that timer. [None]
    when no timer is scheduled. *)
Definition fire_timer (p : Plugin) : option (list Update * Plugin) :=
  match timers (core p) with
  | [] => None
  | t :: rest =>
      let a := core p in
      let (updates, lines) := callback t p in
      Some (updates,
            {| core := mkAccessory (verbose a) (rfbridge a) (remote a) (fanSpeed a)
                         (lightBrightness a) (pendingCommand a) (commandQueue a)
                         (inflight a) (requests a) rest (logged a);
               fanOn := fanOn p; lightOn := lightOn p;
               handler_log := (handler_log p ++ lines)%list |})
  end.

(** The levels HomeKit can set: one to three steps of the fan, one to
    eight steps of twelve percent of the light. *)
Definition fan_levels : list float := [1; 2; 3]%float.
Definition light_levels : list float := [1; 2; 3; 4; 5; 6; 7; 8]%float.

(* ================================================================= *)
(** * Properties of the encoding *)

Section StringFacts.

Lemma length_append (s t : string) :
  String.length (s ++ t) = (String.length s + String.length t)%nat.
Proof.
  induction s as [|c s IH]; cbn; [reflexivity | now rewrite IH].
Qed.

Lemma app_assoc_string (s t u : string) : (s ++ t) ++ u = s ++ (t ++ u).
Proof.
  induction s as [|c s IH]; cbn; [reflexivity | now rewrite IH].
Qed.

Lemma length_fill (c : ascii) (n : nat) : String.length (fill c n) = n.
Proof.
  induction n as [|n IH]; cbn; [reflexivity | now rewrite IH].
Qed.

(** Cutting [n] copies of a one-character filler to [n] characters
    leaves [n] times that character. *)
Lemma prefix_of_copies (c : ascii) (n k : nat) :
  prefix_of n (copies (n + k) (String c EmptyString)) = fill c n.
Proof.
  induction n as [|n IH]; cbn; [reflexivity | now rewrite IH].
Qed.

(** [padStart] with the filler ["0"] is padding with leading zeros. *)
Lemma padStart_zero (w : nat) (s : string) :
  padStart w "0" s = zero_padded w s.
Proof.
  unfold padStart, zero_padded.
  destruct (Nat.leb_spec w (String.length s)) as [Hle | Hlt].
  - replace (w - String.length s)%nat with 0%nat by lia. reflexivity.
  - rewrite <- (Nat.add_0_r (w - String.length s)) at 2.
    now rewrite prefix_of_copies.
Qed.

Lemma length_zero_padded (w : nat) (s : string) :
  (String.length s <= w)%nat -> String.length (zero_padded w s) = w.
Proof.
  intros H. unfold zero_padded. rewrite length_append, length_fill. lia.
Qed.

(** The two chained [replace] calls of lines 362 and 363 act as one
    pass: the token [82] written by the first call contains no [1]
    for the second call to rewrite. *)
Lemma replace_0_then_1 (s : string) :
  replace_all "1" "A0" (replace_all "0" "82" s) = substitute "82" "A0" s.
Proof.
  induction s as [|x r IH]; [reflexivity|].
  cbn [replace_all substitute].
  destruct (Ascii.eqb x "0") eqn:E0.
  - cbn. now rewrite IH.
  - cbn [replace_all]. destruct (Ascii.eqb x "1") eqn:E1; cbn; now rewrite IH.
Qed.

(** The chained calls of line 364, in the other order: the token [82]
    written by the first call contains no [0] either. *)
Lemma replace_1_then_0 (s : string) :
  replace_all "0" "A0" (replace_all "1" "82" s) = substitute "A0" "82" s.
Proof.
  induction s as [|x r IH]; [reflexivity|].
  cbn [replace_all substitute].
  destruct (Ascii.eqb x "1") eqn:E1.
  - apply Ascii.eqb_eq in E1. subst x. cbn. now rewrite IH.
  - cbn [replace_all]. destruct (Ascii.eqb x "0") eqn:E0; cbn; now rewrite IH.
Qed.

(** Substituting in the complement is substituting with the tokens
    exchanged. *)
Lemma substitute_complement (zero one s : string) :
  substitute zero one (complement s) = substitute one zero s.
Proof.
  induction s as [|x r IH]; [reflexivity|].
  cbn [complement substitute]. rewrite IH. f_equal.
  unfold flip_bit.
  destruct (Ascii.eqb x "0") eqn:E0; [reflexivity|].
  destruct (Ascii.eqb x "1") eqn:E1; [reflexivity|].
  now rewrite E0, E1.
Qed.

Lemma complement_involutive_on_substitute (zero one s : string) :
  substitute zero one (complement (complement s)) = substitute zero one s.
Proof. now rewrite !substitute_complement. Qed.

End StringFacts.

Section BinaryDigits.

Lemma length_bits_of_pos (p : positive) :
  String.length (bits_of_pos p) = Pos.size_nat p.
Proof.
  induction p as [q IH | q IH |]; cbn; try reflexivity;
    rewrite length_append, IH; cbn; lia.
Qed.

Lemma size_nat_le (p : positive) :
  forall n : nat, Z.pos p < 2 ^ Z.of_nat n -> (Pos.size_nat p <= n)%nat.
Proof.
  induction p as [q IH | q IH |]; intros [|n] H;
    cbn [Pos.size_nat]; rewrite ?Nat2Z.inj_succ, ?Z.pow_succ_r in H by lia;
    try (apply le_n_S, IH); lia.
Qed.

Lemma length_toString2 (v : Z) (w : nat) :
  (0 < w)%nat -> 0 <= v < 2 ^ Z.of_nat w ->
  (String.length (toString2 v) <= w)%nat.
Proof.
  intros Hw [H0 Hv]. destruct v as [|p|p]; cbn.
  - lia.
  - rewrite length_bits_of_pos. now apply size_nat_le.
  - lia.
Qed.

Lemma binary_value_from_app (s t : string) :
  forall acc,
    binary_value_from acc (s ++ t) =
    match binary_value_from acc s with
    | Some a => binary_value_from a t
    | None => None
    end.
Proof.
  induction s as [|c s IH]; intros acc; cbn; [reflexivity|].
  destruct (Ascii.eqb c "0"); [apply IH|].
  destruct (Ascii.eqb c "1"); [apply IH | reflexivity].
Qed.

Lemma binary_value_from_digit (acc : Z) :
  binary_value_from acc "0" = Some (2 * acc) /\
  binary_value_from acc "1" = Some (2 * acc + 1).
Proof. split; reflexivity. Qed.

Lemma binary_value_from_bits (p : positive) :
  forall acc,
    binary_value_from acc (bits_of_pos p) =
    Some (acc * 2 ^ Z.of_nat (Pos.size_nat p) + Z.pos p).
Proof.
  induction p as [q IH | q IH |]; intros acc;
    cbn [bits_of_pos Pos.size_nat].
  - rewrite binary_value_from_app, IH, Nat2Z.inj_succ, Z.pow_succ_r by lia.
    rewrite (proj2 (binary_value_from_digit _)). f_equal; lia.
  - rewrite binary_value_from_app, IH, Nat2Z.inj_succ, Z.pow_succ_r by lia.
    rewrite (proj1 (binary_value_from_digit _)). f_equal; lia.
  - rewrite (proj2 (binary_value_from_digit _)).
    change (Z.of_nat 1) with 1. f_equal; lia.
Qed.

Lemma binary_value_from_fill (n : nat) (s : string) :
  binary_value_from 0 (fill "0" n ++ s) = binary_value_from 0 s.
Proof.
  induction n as [|n IH]; cbn; [reflexivity | exact IH].
Qed.

Lemma binary_value_from_toString2 (v : Z) :
  0 <= v -> binary_value_from 0 (toString2 v) = Some v.
Proof.
  intros H. destruct v as [|p|p]; cbn; try reflexivity; try lia.
  now rewrite binary_value_from_bits.
Qed.

Lemma zero_padded_nonempty (w : nat) (v : Z) :
  zero_padded w (toString2 v) <> EmptyString.
Proof.
  unfold zero_padded. intros H.
  apply (f_equal String.length) in H. rewrite length_append in H. cbn in H.
  assert (0 < String.length (toString2 v))%nat; [|lia].
  destruct v as [|p|p]; cbn; try lia.
  rewrite length_bits_of_pos. destruct p; cbn; lia.
Qed.

(** Width and round trip of the zero-padded binary form, at any width. *)
Lemma zero_padded_binary (v : Z) (w : nat) :
  (0 < w)%nat -> 0 <= v < 2 ^ Z.of_nat w ->
  String.length (zero_padded w (toString2 v)) = w /\
  binary_value (zero_padded w (toString2 v)) = Some v.
Proof.
  intros Hw Hv. split.
  - apply length_zero_padded. now apply length_toString2.
  - unfold binary_value.
    destruct (zero_padded w (toString2 v)) eqn:E.
    + now apply zero_padded_nonempty in E.
    + rewrite <- E. unfold zero_padded.
      rewrite binary_value_from_fill. apply binary_value_from_toString2. lia.
Qed.

End BinaryDigits.

Section Blocks.

Lemma encode10_zero_padded (c : Z) : encode10 c = zero_padded 10 (toString2 c).
Proof. apply padStart_zero. Qed.

Lemma room_as_one_pass (address : string) : room address = spec_room_block address.
Proof.
  unfold room, spec_room_block. now rewrite replace_0_then_1, padStart_zero.
Qed.

Lemma rfrawCommand_as_one_pass (c : Z) : rfrawCommand c = spec_command_block c.
Proof.
  unfold rfrawCommand, spec_command_block.
  now rewrite replace_0_then_1, padStart_zero.
Qed.

Lemma rfrawInverseCommand_as_one_pass (c : Z) :
  rfrawInverseCommand c = "A0" ++ substitute "A0" "82" (encode10 c) ++ "83".
Proof.
  unfold rfrawInverseCommand, encode10. now rewrite replace_1_then_0.
Qed.

Lemma encode10_width_value (v : Z) :
  0 <= v <= 1023 ->
  String.length (encode10 v) = 10%nat /\ binary_value (encode10 v) = Some v.
Proof.
  intros Hv. rewrite encode10_zero_padded.
  apply zero_padded_binary; [lia|]. change (2 ^ Z.of_nat 10) with 1024. lia.
Qed.

(** Two-character tokens double the length of a string that reads as a
    binary number. *)
Lemma binary_substitute_length_from (zero one s : string) :
  String.length zero = 2%nat -> String.length one = 2%nat ->
  forall acc v, binary_value_from acc s = Some v ->
  String.length (substitute zero one s) = (2 * String.length s)%nat.
Proof.
  intros Hz Ho. induction s as [|x r IH]; intros acc v H; [reflexivity|].
  cbn [substitute binary_value_from String.length] in *.
  rewrite length_append.
  destruct (Ascii.eqb x "0"); [rewrite (IH _ _ H), Hz; lia|].
  destruct (Ascii.eqb x "1"); [rewrite (IH _ _ H), Ho; lia | discriminate].
Qed.

Lemma binary_substitute_length (zero one s : string) (v : Z) :
  String.length zero = 2%nat -> String.length one = 2%nat ->
  binary_value s = Some v ->
  String.length (substitute zero one s) = (2 * String.length s)%nat.
Proof.
  intros Hz Ho H. destruct s as [|x r]; [reflexivity|].
  exact (binary_substitute_length_from zero one _ Hz Ho 0 v H).
Qed.

(** A string that reads as a binary number starts with a binary digit. *)
Lemma binary_value_head (x : ascii) (r : string) (v : Z) :
  binary_value (String x r) = Some v -> x = "0"%char \/ x = "1"%char.
Proof.
  cbn. destruct (Ascii.eqb_spec x "0"); [now left|].
  destruct (Ascii.eqb_spec x "1"); [now right | discriminate].
Qed.

(** The two token assignments never produce the same text from a
    string that reads as a binary number. *)
Lemma substitute_swapped_differs (s : string) (v : Z) :
  binary_value s = Some v ->
  substitute "A0" "82" s <> substitute "82" "A0" s.
Proof.
  destruct s as [|x r]; [discriminate|].
  intros H. destruct (binary_value_head _ _ _ H) as [-> | ->]; cbn; discriminate.
Qed.

End Blocks.

(** Claim C5. For every integer [v] with [0 <= v <= 1023], the 10-bit
    encoding of [v] (the base-2 string of [toString(2)], left-padded
    with ['0'] to width 10, most significant bit first) has exactly 10
    characters, and reading it back as a base-2 number yields [v]. *)
Theorem encode10_length_roundtrip (v : Z) :
  0 <= v <= 1023 ->
  String.length (encode10 v) = 10%nat /\ binary_value (encode10 v) = Some v.
Proof. exact (encode10_width_value v). Qed.

Lemma encode10_length_roundtrip_witness :
  0 <= 98 <= 1023 /\
  String.length (encode10 98) = 10%nat /\ binary_value (encode10 98) = Some 98.
Proof.
  split; [lia | apply (encode10_length_roundtrip 98); lia].
Defined.

Example encode10_fan_off : encode10 FAN_OFF = "0001100010".
Proof. reflexivity. Qed.

Example complement_fan_off : complement (encode10 FAN_OFF) = "1110011101".
Proof. reflexivity. Qed.

(** Claim C6. For every device address made of decimal digits and every
    command code in [0, 1023]: the room block is the address padded with
    leading zeros to width 40, with each [0] replaced by [82] and each
    [1] by [A0], between the prefix [A0] and the suffix [82]; the command
    block is the 10-character binary string of the command, which reads
    back as the command, with [0] replaced by [82] and [1] by [A0],
    between the prefix [82] and the suffix [A0]; it has 24 characters. *)
Theorem room_and_command_blocks (address : string) (c : Z) :
  all_digits address = true ->
  0 <= c <= 1023 ->
  room address = "A0" ++ substitute "82" "A0" (zero_padded 40 address) ++ "82" /\
  rfrawCommand c = "82" ++ substitute "82" "A0" (zero_padded 10 (toString2 c)) ++ "A0" /\
  String.length (zero_padded 10 (toString2 c)) = 10%nat /\
  binary_value (zero_padded 10 (toString2 c)) = Some c /\
  String.length (rfrawCommand c) = 24%nat /\
  (String.length address <= 40 ->
   String.length (zero_padded 40 address) = 40)%nat.
Proof.
  intros _ Hc. split; [apply room_as_one_pass|].
  split; [apply rfrawCommand_as_one_pass|].
  rewrite <- encode10_zero_padded.
  destruct (encode10_width_value c Hc) as [Hl Hv].
  split; [exact Hl|]. split; [exact Hv|]. split.
  - rewrite rfrawCommand_as_one_pass. unfold spec_command_block.
    rewrite <- encode10_zero_padded, !length_append.
    rewrite (binary_substitute_length "82" "A0" _ c eq_refl eq_refl Hv), Hl.
    reflexivity.
  - apply length_zero_padded.
Qed.

Lemma room_and_command_blocks_witness :
  room "1010" =
    "A0" ++ substitute "82" "A0" (zero_padded 40 "1010") ++ "82" /\
  rfrawCommand 98 =
    "82" ++ substitute "82" "A0" (zero_padded 10 (toString2 98)) ++ "A0" /\
  String.length (zero_padded 10 (toString2 98)) = 10%nat /\
  binary_value (zero_padded 10 (toString2 98)) = Some 98 /\
  String.length (rfrawCommand 98) = 24%nat /\
  (String.length "1010" <= 40 ->
   String.length (zero_padded 40 "1010") = 40)%nat.
Proof.
  apply (room_and_command_blocks "1010" 98); [reflexivity | lia].
Defined.

(** Claim C3, as the code has it. For every command code in [0, 1023],
    the binary string of the command has 10 characters and reads back as
    the command, and the inverse-command block, of 24 characters, is
    that binary string itself with each [1] replaced by [82] and each [0] by [A0]
    (which is the command block's assignment, [0] to [82] and [1] to
    [A0], applied to the bitwise complement), between the prefix [A0]
    and the suffix [83]; applying the swapped assignment to the
    complement, as the claim words it, gives a different block. *)
Theorem inverse_block_swaps_tokens_on_command_bits (c : Z) :
  0 <= c <= 1023 ->
  String.length (encode10 c) = 10%nat /\
  binary_value (encode10 c) = Some c /\
  String.length (rfrawInverseCommand c) = 24%nat /\
  rfrawInverseCommand c = "A0" ++ substitute "A0" "82" (encode10 c) ++ "83" /\
  rfrawInverseCommand c =
    "A0" ++ substitute "82" "A0" (complement (encode10 c)) ++ "83" /\
  rfrawInverseCommand c <> spec_inverse_block c.
Proof.
  intros Hc. destruct (encode10_width_value c Hc) as [Hl Hv].
  split; [exact Hl|]. split; [exact Hv|]. split.
  { rewrite rfrawInverseCommand_as_one_pass, !length_append.
    rewrite (binary_substitute_length "A0" "82" _ c eq_refl eq_refl Hv), Hl.
    reflexivity. }
  split; [apply rfrawInverseCommand_as_one_pass|]. split.
  - rewrite substitute_complement. apply rfrawInverseCommand_as_one_pass.
  - rewrite rfrawInverseCommand_as_one_pass. unfold spec_inverse_block.
    rewrite substitute_complement, <- encode10_zero_padded.
    intros H. injection H as H.
    destruct (encode10_width_value c Hc) as [_ Hb].
    apply (substitute_swapped_differs _ _ Hb).
    revert H. generalize (substitute "A0" "82" (encode10 c)).
    generalize (substitute "82" "A0" (encode10 c)).
    intros t s H.
    assert (L : String.length s = String.length t).
    { apply (f_equal String.length) in H. rewrite !length_append in H. cbn in H. lia. }
    revert t H L. induction s as [|x s IH]; intros [|y t] H L;
      cbn in *; try discriminate; [reflexivity|].
    injection H as -> H. f_equal. apply IH; [assumption | lia].
Qed.

Lemma inverse_block_swaps_tokens_on_command_bits_witness :
  String.length (encode10 98) = 10%nat /\
  binary_value (encode10 98) = Some 98 /\
  String.length (rfrawInverseCommand 98) = 24%nat /\
  rfrawInverseCommand 98 = "A0" ++ substitute "A0" "82" (encode10 98) ++ "83" /\
  rfrawInverseCommand 98 =
    "A0" ++ substitute "82" "A0" (complement (encode10 98)) ++ "83" /\
  rfrawInverseCommand 98 <> spec_inverse_block 98.
Proof.
  apply (inverse_block_swaps_tokens_on_command_bits 98); lia.
Defined.

(** Claim C3, as stated, fails for Fan Off (98): the binary string is
    [0001100010] and its complement [1110011101]; replacing in the
    complement [1] by [82] and [0] by [A0] gives the tokens of the
    command block, while line 364 produces the opposite token at every
    position. *)
Lemma inverse_block_of_complement_counterexample :
  encode10 98 = "0001100010" /\
  complement (encode10 98) = "1110011101" /\
  spec_inverse_block 98 = "A0828282A0A0828282A08283" /\
  rfrawInverseCommand 98 = "A0A0A0A08282A0A0A082A083" /\
  rfrawInverseCommand 98 <> spec_inverse_block 98.
Proof.
  repeat split; try reflexivity. discriminate.
Qed.

(* ================================================================= *)
(** * Properties of the command queue *)

(** Reduces the field accesses on updated records. *)
Ltac fields :=
  unfold got, log, setTimeout, set_inflight, set_commandQueue,
    set_pendingCommand, set_lightBrightness, set_fanSpeed in *;
  cbn [verbose rfbridge remote fanSpeed lightBrightness pendingCommand
       commandQueue inflight requests timers logged] in *.

Section QueueFacts.

Lemma pop_snoc {A : Type} (q : list A) (e : A) : pop (q ++ [e])%list = (Some e, q).
Proof.
  induction q as [|x q IH]; [reflexivity|].
  cbn [app pop]. rewrite IH.
  destruct (q ++ [e])%list eqn:E; [now destruct q | reflexivity].
Qed.

Lemma snoc_cases {A : Type} (l : list A) :
  l = [] \/ exists q e, l = (q ++ [e])%list.
Proof.
  induction l as [|x l _] using rev_ind; [now left | right; eauto].
Qed.

Variable a : Accessory.

(** The four ways through [runNextCommand]. *)
Lemma runNextCommand_pending :
  pendingCommand a = true -> runNextCommand a = a.
Proof. unfold runNextCommand. now intros ->. Qed.

Lemma runNextCommand_empty :
  commandQueue a = [] -> runNextCommand a = a.
Proof.
  unfold runNextCommand. intros ->. now destruct (pendingCommand a).
Qed.

Lemma runNextCommand_transmit (q : list Command) (e : Command) :
  pendingCommand a = false -> test_mode a = false ->
  commandQueue a = (q ++ [e])%list ->
  runNextCommand a = got e (set_pendingCommand true (set_commandQueue q a)).
Proof.
  unfold runNextCommand. intros -> Ht ->. rewrite pop_snoc. cbn [negb].
  replace (test_mode (set_commandQueue q a)) with (test_mode a) by reflexivity.
  now rewrite Ht.
Qed.

Lemma runNextCommand_test_mode (q : list Command) (e : Command) :
  pendingCommand a = false -> test_mode a = true ->
  commandQueue a = (q ++ [e])%list ->
  runNextCommand a = log (InfoTestMode e) (set_commandQueue q a).
Proof.
  unfold runNextCommand. intros -> Ht ->. rewrite pop_snoc. cbn [negb].
  replace (test_mode (set_commandQueue q a)) with (test_mode a) by reflexivity.
  now rewrite Ht.
Qed.

(** The configuration is read-only. *)
Lemma test_mode_runNextCommand : test_mode (runNextCommand a) = test_mode a.
Proof.
  unfold runNextCommand.
  destruct (pendingCommand a); cbn [negb]; [reflexivity|].
  destruct (pop (commandQueue a)) as [[e|] rest]; [|reflexivity].
  now destruct (negb (test_mode (set_commandQueue rest a))).
Qed.

End QueueFacts.

Lemma test_mode_addCommand (c : Z) (url : string) (a : Accessory) :
  test_mode (addCommand c url a) = test_mode a.
Proof. unfold addCommand. now rewrite test_mode_runNextCommand. Qed.

Lemma test_mode_sendCommand (arg : JSValue) (a : Accessory) :
  test_mode (sendCommand arg a) = test_mode a.
Proof.
  unfold sendCommand.
  destruct (strict_eq_number _ _ || _); [reflexivity|].
  destruct arg; try reflexivity;
    rewrite test_mode_addCommand; now destruct (verbose a).
Qed.

Section SingleFlight.

Lemma single_flight_cases (a : Accessory) :
  single_flight a = true <->
  (pendingCommand a = false /\ inflight a = []) \/
  (pendingCommand a = true /\ test_mode a = false /\ exists c, inflight a = [c]).
Proof.
  unfold single_flight. destruct (pendingCommand a); split.
  - intros H. apply andb_prop in H as [L T]. right.
    apply negb_true_iff in T. repeat split; trivial.
    destruct (inflight a) as [|c [|d l]]; try discriminate. now exists c.
  - intros [[H _] | (_ & T & c & ->)]; [discriminate|]. now rewrite T.
  - intros H. left. split; trivial. now destruct (inflight a).
  - intros [[_ ->] | (H & _)]; [reflexivity | discriminate].
Qed.

Lemma single_flight_length (a : Accessory) :
  single_flight a = true -> (List.length (inflight a) <= 1)%nat.
Proof.
  intros H. apply single_flight_cases in H as [[_ ->] | (_ & _ & c & ->)]; cbn; lia.
Qed.

Lemma single_flight_runNextCommand (a : Accessory) :
  single_flight a = true -> single_flight (runNextCommand a) = true.
Proof.
  intros H. destruct (pendingCommand a) eqn:P.
  - now rewrite runNextCommand_pending.
  - destruct (snoc_cases (commandQueue a)) as [E | (q & e & E)].
    + now rewrite runNextCommand_empty.
    + apply single_flight_cases in H as [[_ I] | (P' & _)]; [|congruence].
      destruct (test_mode a) eqn:T.
      * rewrite (runNextCommand_test_mode a q e P T E).
        apply single_flight_cases. left. fields. now split.
      * rewrite (runNextCommand_transmit a q e P T E).
        apply single_flight_cases. right. fields. rewrite I.
        repeat split; trivial. now exists e.
Qed.

Lemma single_flight_addCommand (c : Z) (url : string) (a : Accessory) :
  single_flight a = true -> single_flight (addCommand c url a) = true.
Proof. intros H. unfold addCommand. now apply single_flight_runNextCommand. Qed.

Lemma single_flight_sendCommand (arg : JSValue) (a : Accessory) :
  single_flight a = true -> single_flight (sendCommand arg a) = true.
Proof.
  intros H. unfold sendCommand.
  destruct (strict_eq_number _ _ || _); [assumption|].
  destruct arg; try assumption;
    apply single_flight_addCommand; now destruct (verbose a).
Qed.

Lemma single_flight_finally (c : Command) (o : Outcome) (a : Accessory) :
  single_flight (finally (then_catch c o (set_inflight [] a))) = true.
Proof.
  apply single_flight_runNextCommand.
  destruct o as [body | error]; cbn [then_catch]; [|reflexivity].
  now destruct (verbose (set_inflight [] a)).
Qed.

(** Under the invariant the only request that can settle is the single
    outstanding one. *)
Lemma settle_inversion (i : nat) (o : Outcome) (a a' : Accessory) :
  single_flight a = true -> settle i o a = Some a' ->
  exists c,
    i = 0%nat /\ inflight a = [c] /\ pendingCommand a = true /\
    test_mode a = false /\
    a' = finally (then_catch c o (set_inflight [] a)).
Proof.
  intros H S. unfold settle in S.
  apply single_flight_cases in H as [[_ I] | (P & T & c & I)]; rewrite I in S.
  - now destruct i.
  - destruct i as [|[|i]]; try discriminate.
    cbn in S. injection S as <-. now exists c.
Qed.

Lemma single_flight_step (e : Event) (a a' : Accessory) :
  single_flight a = true -> step a e = Some a' -> single_flight a' = true.
Proof.
  intros H S. destruct e as [arg | c url | | value | value | i o]; cbn in S.
  - injection S as <-. now apply single_flight_sendCommand.
  - injection S as <-. now apply single_flight_addCommand.
  - injection S as <-. now apply single_flight_runNextCommand.
  - injection S as <-. apply single_flight_sendCommand.
    now destruct (_ =? _)%float.
  - injection S as <-. apply single_flight_sendCommand.
    now destruct (_ =? _)%float.
  - destruct (settle_inversion i o a a' H S) as (c & _ & _ & _ & _ & ->).
    apply single_flight_finally.
Qed.

Lemma single_flight_run (events : list Event) :
  forall a a', single_flight a = true -> run a events = Some a' ->
               single_flight a' = true.
Proof.
  induction events as [|e rest IH]; intros a a' H R; cbn in R.
  - now injection R as <-.
  - destruct (step a e) as [a1|] eqn:S; [|discriminate].
    exact (IH a1 a' (single_flight_step e a a1 H S) R).
Qed.

Lemma single_flight_constructor (config : AccessoryConfig) :
  single_flight (constructor config) = true.
Proof. reflexivity. Qed.

(** While a request is outstanding, neither entry point touches the
    transport. *)
Lemma busy_runNextCommand (a : Accessory) :
  single_flight a = true -> inflight a <> [] -> runNextCommand a = a.
Proof.
  intros H N. apply runNextCommand_pending.
  apply single_flight_cases in H as [[_ I] | (P & _)]; [contradiction | exact P].
Qed.

Lemma busy_addCommand (c : Z) (url : string) (a : Accessory) :
  single_flight a = true -> inflight a <> [] ->
  requests (addCommand c url a) = requests a /\
  inflight (addCommand c url a) = inflight a /\
  commandQueue (addCommand c url a) =
    (commandQueue a ++ [{| command := c; targetUrl := url |}])%list.
Proof.
  intros H N. unfold addCommand.
  rewrite busy_runNextCommand; [now fields | exact H | exact N].
Qed.

(** A drain attempt leaves the flag set or the queue empty, so that a
    drain attempt right after it finds nothing to start. *)
Lemma runNextCommand_twice (a : Accessory) :
  single_flight a = true ->
  requests (runNextCommand (runNextCommand a)) = requests (runNextCommand a) /\
  inflight (runNextCommand (runNextCommand a)) = inflight (runNextCommand a).
Proof.
  intros H. destruct (pendingCommand a) eqn:P.
  - now rewrite !(runNextCommand_pending a P).
  - destruct (snoc_cases (commandQueue a)) as [E | (q & e & E)].
    + now rewrite !(runNextCommand_empty a E).
    + destruct (test_mode a) eqn:T.
      * rewrite (runNextCommand_test_mode a q e P T E).
        set (a1 := log _ _).
        destruct (snoc_cases (commandQueue a1)) as [E1 | (q1 & e1 & E1)].
        -- now rewrite (runNextCommand_empty a1 E1).
        -- now rewrite (runNextCommand_test_mode a1 q1 e1 P T E1).
      * rewrite (runNextCommand_transmit a q e P T E).
        now rewrite runNextCommand_pending by reflexivity.
Qed.

End SingleFlight.

Section Invariant.

Lemma then_catch_fields (c : Command) (o : Outcome) (a : Accessory) :
  commandQueue (then_catch c o a) = commandQueue a /\
  pendingCommand (then_catch c o a) = pendingCommand a /\
  inflight (then_catch c o a) = inflight a /\
  requests (then_catch c o a) = requests a /\
  test_mode (then_catch c o a) = test_mode a.
Proof.
  destruct o as [body | error]; cbn [then_catch];
    [destruct (verbose a)|]; repeat split.
Qed.

Lemma invariant_runNextCommand (a : Accessory) :
  single_flight a = true -> silent_in_test_mode a ->
  (pendingCommand a = false -> (List.length (commandQueue a) <= 1)%nat) ->
  invariant (runNextCommand a).
Proof.
  intros H S L. split; [now apply single_flight_runNextCommand|].
  destruct (pendingCommand a) eqn:P.
  - rewrite (runNextCommand_pending a P). split; [|exact S].
    intros P'. congruence.
  - destruct (snoc_cases (commandQueue a)) as [E | (q & e & E)].
    + rewrite (runNextCommand_empty a E). split; [|exact S]. now intros _.
    + assert (q = []) as ->.
      { specialize (L eq_refl). rewrite E, List.length_app in L. cbn in L.
        destruct q; [reflexivity | cbn in L; lia]. }
      destruct (test_mode a) eqn:T.
      * rewrite (runNextCommand_test_mode a [] e P T E).
        split; [now intros _ | intros _; fields; now apply S].
      * rewrite (runNextCommand_transmit a [] e P T E).
        split; [intros P'; discriminate P'|].
        intros T'. change (test_mode a = true) in T'. congruence.
Qed.

Lemma invariant_runNextCommand_again (a : Accessory) :
  invariant a -> invariant (runNextCommand a).
Proof.
  intros (H & D & S). apply invariant_runNextCommand; trivial.
  intros P. rewrite (D P). cbn. lia.
Qed.

Lemma invariant_addCommand (c : Z) (url : string) (a : Accessory) :
  invariant a -> invariant (addCommand c url a).
Proof.
  intros (H & D & S). unfold addCommand.
  apply invariant_runNextCommand; trivial.
  intros P. fields. rewrite (D P). cbn. lia.
Qed.

Lemma invariant_sendCommand (arg : JSValue) (a : Accessory) :
  invariant a -> invariant (sendCommand arg a).
Proof.
  intros H. unfold sendCommand.
  destruct (strict_eq_number _ _ || _); [assumption|].
  destruct arg; try assumption;
    apply invariant_addCommand; now destruct (verbose a).
Qed.

Lemma invariant_step (e : Event) (a a' : Accessory) :
  invariant a -> step a e = Some a' -> invariant a'.
Proof.
  intros H S. destruct e as [arg | c url | | value | value | i o]; cbn in S.
  - injection S as <-. now apply invariant_sendCommand.
  - injection S as <-. now apply invariant_addCommand.
  - injection S as <-. now apply invariant_runNextCommand_again.
  - injection S as <-. apply invariant_sendCommand.
    now destruct (_ =? _)%float.
  - injection S as <-. apply invariant_sendCommand.
    now destruct (_ =? _)%float.
  - destruct H as (H & D & Q).
    destruct (settle_inversion i o a a' H S) as (c & _ & I & P & T & ->).
    unfold finally.
    destruct (then_catch_fields c o (set_inflight [] a)) as (Eq & Ep & Ei & Er & Et).
    change (test_mode (set_inflight [] a)) with (test_mode a) in Et.
    rewrite T in Et.
    set (b := then_catch c o (set_inflight [] a)) in *.
    destruct (snoc_cases (commandQueue b)) as [E | (q & e & E)].
    + rewrite runNextCommand_empty by exact E.
      split; [now apply single_flight_cases; left; fields|].
      split; [now intros _|].
      intros T'. change (test_mode b = true) in T'. congruence.
    + rewrite (runNextCommand_transmit (set_pendingCommand false b) q e eq_refl Et E).
      split; [apply single_flight_cases; right; fields; rewrite Ei;
              repeat split; [exact Et | now exists e]|].
      split; [intros P'; discriminate P'|].
      intros T'. change (test_mode b = true) in T'. congruence.
Qed.

Lemma invariant_run (events : list Event) :
  forall a a', invariant a -> run a events = Some a' -> invariant a'.
Proof.
  induction events as [|e rest IH]; intros a a' H R; cbn in R.
  - now injection R as <-.
  - destruct (step a e) as [a1|] eqn:S; [|discriminate].
    exact (IH a1 a' (invariant_step e a a1 H S) R).
Qed.

Lemma invariant_constructor (config : AccessoryConfig) :
  invariant (constructor config).
Proof. repeat split. Qed.

Lemma reachable_invariant (config : AccessoryConfig) (events : list Event)
      (a : Accessory) :
  run (constructor config) events = Some a -> invariant a.
Proof. apply invariant_run, invariant_constructor. Qed.

End Invariant.

Section Dispatch.

Lemma addCommand_idle (c : Z) (url : string) (a : Accessory) :
  single_flight a = true -> pendingCommand a = false ->
  commandQueue a = [] -> test_mode a = false ->
  requests (addCommand c url a) =
    (requests a ++ [{| command := c; targetUrl := url |}])%list /\
  inflight (addCommand c url a) = [{| command := c; targetUrl := url |}] /\
  commandQueue (addCommand c url a) = [] /\
  pendingCommand (addCommand c url a) = true.
Proof.
  intros H P E T. unfold addCommand.
  apply single_flight_cases in H as [[_ I] | (P' & _)]; [|congruence].
  rewrite (runNextCommand_transmit _ [] {| command := c; targetUrl := url |});
    fields; trivial; [now rewrite I | now rewrite E].
Qed.

Lemma addCommand_test_mode (c : Z) (url : string) (a : Accessory) :
  pendingCommand a = false -> commandQueue a = [] -> test_mode a = true ->
  requests (addCommand c url a) = requests a /\
  inflight (addCommand c url a) = inflight a /\
  commandQueue (addCommand c url a) = [] /\
  pendingCommand (addCommand c url a) = false /\
  logged (addCommand c url a) =
    (logged a ++ [InfoQueued {| command := c; targetUrl := url |};
                  InfoTestMode {| command := c; targetUrl := url |}])%list.
Proof.
  intros P E T. unfold addCommand.
  rewrite (runNextCommand_test_mode _ [] {| command := c; targetUrl := url |});
    fields; trivial; [|now rewrite E].
  repeat split; trivial. now rewrite <- List.app_assoc.
Qed.

(** The completion of the outstanding request: the handlers run, the
    flag is cleared, and the most recently queued entry, if there is
    one, is transmitted. *)
Lemma settle_outstanding (o : Outcome) (c : Command) (a : Accessory) :
  single_flight a = true -> inflight a = [c] ->
  exists a',
    settle 0 o a = Some a' /\ single_flight a' = true /\
    (commandQueue a = [] ->
       pendingCommand a' = false /\ inflight a' = [] /\
       requests a' = requests a /\ commandQueue a' = []) /\
    (forall q e, commandQueue a = (q ++ [e])%list ->
       pendingCommand a' = true /\ inflight a' = [e] /\
       requests a' = (requests a ++ [e])%list /\ commandQueue a' = q).
Proof.
  intros H I.
  assert (T : test_mode a = false).
  { apply single_flight_cases in H as [[_ I'] | (_ & T & _)]; congruence. }
  exists (finally (then_catch c o (set_inflight [] a))).
  split; [unfold settle; now rewrite I|].
  split; [apply single_flight_finally|].
  unfold finally.
  destruct (then_catch_fields c o (set_inflight [] a)) as (Eq & Ep & Ei & Er & Et).
  change (test_mode (set_inflight [] a)) with (test_mode a) in Et.
  rewrite T in Et.
  change (commandQueue (set_inflight [] a)) with (commandQueue a) in Eq.
  change (requests (set_inflight [] a)) with (requests a) in Er.
  change (inflight (set_inflight [] a)) with (@nil Command) in Ei.
  set (b := then_catch c o _) in *.
  split.
  - intros E.
    rewrite (runNextCommand_empty (set_pendingCommand false b))
      by (change (commandQueue b = []); congruence).
    change (false = false /\ inflight b = [] /\
            requests b = requests a /\ commandQueue b = []).
    repeat split; congruence.
  - intros q e E.
    rewrite (runNextCommand_transmit (set_pendingCommand false b) q e eq_refl Et)
      by (change (commandQueue b = (q ++ [e])%list); congruence).
    change (true = true /\ (inflight b ++ [e])%list = [e] /\
            (requests b ++ [e])%list = (requests a ++ [e])%list /\
            q = q).
    rewrite Ei, Er. now repeat split.
Qed.

(** Settling one request after the other empties the queue from its
    newest entry to its oldest, whatever the outcomes are. *)
Lemma drain (q : list Command) :
  forall (a : Accessory) (c : Command) (outcomes : list Outcome),
    single_flight a = true -> inflight a = [c] -> commandQueue a = q ->
    List.length outcomes = S (List.length q) ->
    exists a',
      run a (map (Settle 0) outcomes) = Some a' /\
      requests a' = (requests a ++ rev q)%list /\
      commandQueue a' = [] /\ pendingCommand a' = false /\ inflight a' = [].
Proof.
  induction q as [|e q IH] using rev_ind; intros a c outcomes H I E L.
  - destruct outcomes as [|o [|o' rest]]; try discriminate.
    destruct (settle_outstanding o c a H I) as (a' & S & _ & N & _).
    destruct (N E) as (P' & I' & R' & Q').
    exists a'. cbn. rewrite S, R', List.app_nil_r. now repeat split.
  - destruct outcomes as [|o rest]; [discriminate|].
    rewrite List.length_app in L. cbn in L.
    destruct (settle_outstanding o c a H I) as (a1 & S & H1 & _ & N).
    destruct (N q e E) as (P1 & I1 & R1 & Q1).
    destruct (IH a1 e rest H1 I1 Q1) as (a' & Ra & Rq & Qa & Pa & Ia); [lia|].
    exists a'. cbn. rewrite S, Ra, Rq, R1, rev_unit, <- List.app_assoc.
    now repeat split.
Qed.

Lemma runNextCommand_requests (a : Accessory) :
  (List.length (requests (runNextCommand a)) <= S (List.length (requests a)))%nat.
Proof.
  unfold runNextCommand.
  destruct (negb (pendingCommand a)); [|lia].
  destruct (pop (commandQueue a)) as [[e|] rest]; [|lia].
  destruct (negb (test_mode _)); fields; [|lia].
  rewrite List.length_app. cbn. lia.
Qed.

(** The guard of line 358. *)
Lemma sendCommand_invalid (arg : JSValue) (a : Accessory) :
  arg = JSNumber (-1) \/ typeof arg <> "number" -> sendCommand arg a = a.
Proof.
  intros [-> | N]; [reflexivity|].
  destruct arg; try reflexivity. now contradiction N.
Qed.

Lemma sendCommand_valid (c : Z) (a : Accessory) :
  c <> -1 ->
  sendCommand (JSNumber c) a =
  addCommand c (target (rfbridge a) (remote a) c)
             (if verbose a then log (InfoSendCommand c) a else a).
Proof.
  intros N. unfold sendCommand. cbn [strict_eq_number typeof].
  apply Z.eqb_neq in N. now rewrite N.
Qed.

End Dispatch.

(* ================================================================= *)
(** * The claims about the queue and the dispatcher *)

(** Claim C1. At most one transmission is ever in flight. In every state
    the accessory can reach by any sequence of calls, SET events and
    completions, at most one request is outstanding; while one is
    outstanding, neither an enqueue ([addCommand], also through
    [sendCommand]) nor a drain attempt ([runNextCommand]) starts another;
    and of two drain attempts in immediate succession the second never
    starts a request, so that together they start at most one. *)
Theorem at_most_one_transmission_in_flight
  (config : AccessoryConfig) (events : list Event) (a : Accessory) :
  run (constructor config) events = Some a ->
  (List.length (inflight a) <= 1)%nat /\
  (inflight a <> [] ->
     (forall c url,
        requests (addCommand c url a) = requests a /\
        inflight (addCommand c url a) = inflight a) /\
     (forall arg,
        requests (sendCommand arg a) = requests a /\
        inflight (sendCommand arg a) = inflight a) /\
     requests (runNextCommand a) = requests a /\
     inflight (runNextCommand a) = inflight a) /\
  requests (runNextCommand (runNextCommand a)) = requests (runNextCommand a) /\
  (List.length (requests (runNextCommand (runNextCommand a)))
   <= S (List.length (requests a)))%nat /\
  (List.length (inflight (runNextCommand (runNextCommand a))) <= 1)%nat.
Proof.
  intros R. destruct (reachable_invariant _ _ _ R) as (H & _ & _).
  split; [now apply single_flight_length|]. split; [|split; [|split]].
  - intros N.
    assert (B : forall c url,
               requests (addCommand c url a) = requests a /\
               inflight (addCommand c url a) = inflight a).
    { intros c url. destruct (busy_addCommand c url a H N) as (E1 & E2 & _).
      now split. }
    split; [exact B|]. split.
    + intros arg. unfold sendCommand.
      destruct (strict_eq_number _ _ || _); [now split|].
      destruct arg; try (now split);
        destruct (verbose a);
        try apply B;
        match goal with
        | |- context [addCommand ?c ?u (log ?e a)] =>
            destruct (busy_addCommand c u (log e a) H N) as (E1 & E2 & _);
            now split
        end.
    + now rewrite (busy_runNextCommand a H N).
  - now apply runNextCommand_twice.
  - destruct (runNextCommand_twice a H) as [-> _]. apply runNextCommand_requests.
  - now apply single_flight_length, single_flight_runNextCommand,
      single_flight_runNextCommand.
Qed.

Lemma at_most_one_transmission_in_flight_witness :
  let events := [CallSendCommand (JSNumber FAN_SPEED1);
                 CallSendCommand (JSNumber FAN_SPEED2)] in
  let a := sendCommand (JSNumber FAN_SPEED2)
             (sendCommand (JSNumber FAN_SPEED1) (constructor sample_config)) in
  run (constructor sample_config) events = Some a /\
  (List.length (inflight a) <= 1)%nat /\
  requests (runNextCommand (runNextCommand a)) = requests (runNextCommand a).
Proof.
  intros events a. split; [reflexivity|].
  destruct (at_most_one_transmission_in_flight sample_config events a eq_refl)
    as (L & _ & T & _).
  split; [exact L | exact T].
Defined.

(** Claim C7. Whenever the outstanding request completes, with success or
    with failure, the completion handler returns normally, the in-flight
    flag is released and a drain is attempted: with an empty queue the
    accessory is idle afterwards, otherwise the most recently queued
    entry is handed to the transport. Whatever the outcomes of this and
    of the following requests, every queued entry is dispatched. *)
Theorem completion_releases_flag_and_drains
  (config : AccessoryConfig) (events : list Event) (a : Accessory)
  (c : Command) (o : Outcome) :
  run (constructor config) events = Some a ->
  inflight a = [c] ->
  exists a',
    settle 0 o a = Some a' /\
    a' = runNextCommand
           (set_pendingCommand false (then_catch c o (set_inflight [] a))) /\
    (commandQueue a = [] ->
       pendingCommand a' = false /\ inflight a' = [] /\ requests a' = requests a) /\
    (forall q e, commandQueue a = (q ++ [e])%list ->
       pendingCommand a' = true /\ inflight a' = [e] /\
       requests a' = (requests a ++ [e])%list /\ commandQueue a' = q) /\
    (forall outcomes,
       List.length outcomes = List.length (commandQueue a) ->
       exists a'',
         run a' (map (Settle 0) outcomes) = Some a'' /\
         requests a'' = (requests a ++ rev (commandQueue a))%list /\
         commandQueue a'' = [] /\ pendingCommand a'' = false).
Proof.
  intros R I. destruct (reachable_invariant _ _ _ R) as (H & _ & _).
  destruct (settle_outstanding o c a H I) as (a' & S & _ & N & M).
  exists a'. split; [exact S|]. split.
  - unfold settle in S. rewrite I in S. cbn in S. now injection S as <-.
  - split; [intros E; destruct (N E) as (? & ? & ? & _); now repeat split|].
    split; [exact M|].
    intros outcomes L.
    destruct (drain (commandQueue a) a c (o :: outcomes) H I eq_refl)
      as (a'' & Ra & Rq & Qa & Pa & _); [cbn; now rewrite L|].
    cbn in Ra. rewrite S in Ra. exists a''. now repeat split.
Qed.

Lemma completion_releases_flag_and_drains_witness :
  let events := [CallSendCommand (JSNumber FAN_SPEED1);
                 CallSendCommand (JSNumber FAN_SPEED2);
                 CallSendCommand (JSNumber FAN_SPEED3)] in
  let a := sendCommand (JSNumber FAN_SPEED3)
             (sendCommand (JSNumber FAN_SPEED2)
                (sendCommand (JSNumber FAN_SPEED1) (constructor sample_config))) in
  let c := {| command := FAN_SPEED1;
              targetUrl := target "bridge" "0" FAN_SPEED1 |} in
  run (constructor sample_config) events = Some a /\
  inflight a = [c] /\
  exists a', settle 0 (Rejected "ETIMEDOUT") a = Some a' /\
             dispatched a' = [FAN_SPEED1; FAN_SPEED3].
Proof.
  intros events a c. split; [reflexivity|]. split; [reflexivity|].
  destruct (completion_releases_flag_and_drains
              sample_config events a c (Rejected "ETIMEDOUT") eq_refl eq_refl)
    as (a' & S & E & _).
  exists a'. split; [exact S|]. rewrite E. reflexivity.
Defined.

(** Claim C4, as the code has it. Every drain removes the most recently
    enqueued entry. If [A], [B], [C] are enqueued in that order while a
    transmission is in flight, and each dispatch completes before the
    next begins, they are dispatched [C], then [B], then [A]. If they are
    enqueued while the dispatcher is idle, [A] is handed to the transport
    by its own enqueue, before [B] and [C] are queued, and the order is
    [A], then [C], then [B]. *)
Theorem newest_entry_is_dispatched_first
  (config : AccessoryConfig) (events : list Event) (a : Accessory)
  (A B C : Z) (uA uB uC : string) (o1 o2 o3 : Outcome) :
  run (constructor config) events = Some a ->
  test_mode a = false ->
  let eA := {| command := A; targetUrl := uA |} in
  let eB := {| command := B; targetUrl := uB |} in
  let eC := {| command := C; targetUrl := uC |} in
  let a3 := addCommand C uC (addCommand B uB (addCommand A uA a)) in
  (pendingCommand a = true ->
     requests a3 = requests a /\
     exists a',
       run a3 [Settle 0 o1; Settle 0 o2; Settle 0 o3] = Some a' /\
       requests a' = (requests a ++ [eC; eB; eA])%list) /\
  (pendingCommand a = false ->
     requests (addCommand A uA a) = (requests a ++ [eA])%list /\
     requests a3 = (requests a ++ [eA])%list /\
     exists a',
       run a3 [Settle 0 o1; Settle 0 o2] = Some a' /\
       requests a' = (requests a ++ [eA; eC; eB])%list).
Proof.
  intros R T eA eB eC a3.
  destruct (reachable_invariant _ _ _ R) as (H & D & _).
  assert (Busy : forall x b, single_flight b = true -> inflight b = [x] ->
            forall c u,
              single_flight (addCommand c u b) = true /\
              inflight (addCommand c u b) = [x] /\
              requests (addCommand c u b) = requests b /\
              commandQueue (addCommand c u b) =
                (commandQueue b ++ [{| command := c; targetUrl := u |}])%list).
  { intros x b Hb Ib c u.
    destruct (busy_addCommand c u b Hb) as (E1 & E2 & E3); [now rewrite Ib|].
    split; [now apply single_flight_addCommand|].
    rewrite E2. now repeat split. }
  split; intros P.
  - apply single_flight_cases in H as Hc.
    destruct Hc as [[P' _] | (_ & _ & x & I)]; [congruence|].
    destruct (Busy x a H I A uA) as (H1 & I1 & R1 & Q1).
    destruct (Busy x _ H1 I1 B uB) as (H2 & I2 & R2 & Q2).
    destruct (Busy x _ H2 I2 C uC) as (H3 & I3 & R3 & Q3).
    fold a3 in H3, I3, R3, Q3. fold eA in Q1. fold eB in Q2. fold eC in Q3.
    split; [congruence|].
    destruct (settle_outstanding o1 x a3 H3 I3) as (a4 & S4 & H4 & _ & N4).
    destruct (N4 _ _ Q3) as (_ & I4 & R4 & Q4).
    destruct (settle_outstanding o2 eC a4 H4 I4) as (a5 & S5 & H5 & _ & N5).
    rewrite Q2 in Q4. destruct (N5 _ _ Q4) as (_ & I5 & R5 & Q5).
    destruct (settle_outstanding o3 eB a5 H5 I5) as (a6 & S6 & H6 & _ & N6).
    rewrite Q1 in Q5. destruct (N6 _ _ Q5) as (_ & I6 & R6 & Q6).
    exists a6. cbn. rewrite S4, S5, S6. split; [reflexivity|].
    rewrite R6, R5, R4, R3, R2, R1, <- !List.app_assoc. reflexivity.
  - destruct (addCommand_idle A uA a H P (D P) T) as (R1 & I1 & Q1 & P1).
    fold eA in R1, I1.
    assert (H1 : single_flight (addCommand A uA a) = true)
      by now apply single_flight_addCommand.
    destruct (Busy eA _ H1 I1 B uB) as (H2 & I2 & R2 & Q2).
    destruct (Busy eA _ H2 I2 C uC) as (H3 & I3 & R3 & Q3).
    fold a3 in H3, I3, R3, Q3. fold eB in Q2. fold eC in Q3.
    split; [exact R1|]. split; [congruence|].
    destruct (settle_outstanding o1 eA a3 H3 I3) as (a4 & S4 & H4 & _ & N4).
    destruct (N4 _ _ Q3) as (_ & I4 & R4 & Q4).
    destruct (settle_outstanding o2 eC a4 H4 I4) as (a5 & S5 & H5 & _ & N5).
    rewrite Q2, Q1 in Q4. destruct (N5 [] eB Q4) as (_ & I5 & R5 & Q5).
    exists a5. cbn. rewrite S4, S5. split; [reflexivity|].
    rewrite R5, R4, R3, R2, R1, <- !List.app_assoc. reflexivity.
Qed.

Lemma newest_entry_is_dispatched_first_witness :
  let a := constructor sample_config in
  let ok := Fulfilled "ok" in
  run (constructor sample_config) [] = Some a /\
  test_mode a = false /\
  pendingCommand a = false /\
  exists a',
    run (addCommand 3 "C" (addCommand 2 "B" (addCommand 1 "A" a)))
        [Settle 0 ok; Settle 0 ok] = Some a' /\
    dispatched a' = [1; 3; 2].
Proof.
  intros a ok. repeat (split; [reflexivity|]).
  destruct (newest_entry_is_dispatched_first
              sample_config [] a 1 2 3 "A" "B" "C" ok ok ok eq_refl eq_refl)
    as (_ & Idle).
  destruct (Idle eq_refl) as (_ & _ & a' & Ra & Rq).
  exists a'. split; [exact Ra|]. unfold dispatched. rewrite Rq. reflexivity.
Defined.

(** Claim C4, as stated, fails: from the idle accessory, enqueuing Fan
    Speed 1, 2 and 3 and letting each dispatch complete before the next
    begins hands Speed 1 to the transport first; the order is 1, 3, 2
    when the three are enqueued at once, and 1, 2, 3 when each is
    enqueued after the previous one completed; it is never 3, 2, 1. *)
Lemma enqueue_while_idle_counterexample :
  let idle := constructor sample_config in
  let ok := Fulfilled "ok" in
  let A := CallSendCommand (JSNumber FAN_SPEED1) in
  let B := CallSendCommand (JSNumber FAN_SPEED2) in
  let C := CallSendCommand (JSNumber FAN_SPEED3) in
  quiescent idle = true /\
  option_map dispatched
    (run idle [A; B; C; Settle 0 ok; Settle 0 ok; Settle 0 ok])
    = Some [FAN_SPEED1; FAN_SPEED3; FAN_SPEED2] /\
  option_map dispatched
    (run idle [A; Settle 0 ok; B; Settle 0 ok; C; Settle 0 ok])
    = Some [FAN_SPEED1; FAN_SPEED2; FAN_SPEED3] /\
  option_map dispatched
    (run idle [A; B; C; Settle 0 ok; Settle 0 ok; Settle 0 ok])
    <> Some [FAN_SPEED3; FAN_SPEED2; FAN_SPEED1].
Proof.
  cbv zeta. repeat split; try reflexivity. vm_compute. discriminate.
Qed.

Section TestMode.

Lemma test_mode_then_catch_finally (c : Command) (o : Outcome) (a : Accessory) :
  test_mode (finally (then_catch c o a)) = test_mode a.
Proof.
  unfold finally. rewrite test_mode_runNextCommand.
  now destruct (then_catch_fields c o a) as (_ & _ & _ & _ & E).
Qed.

Lemma test_mode_step (e : Event) (a a' : Accessory) :
  step a e = Some a' -> test_mode a' = test_mode a.
Proof.
  destruct e as [arg | c url | | value | value | i o]; cbn; intros S.
  - injection S as <-. apply test_mode_sendCommand.
  - injection S as <-. apply test_mode_addCommand.
  - injection S as <-. apply test_mode_runNextCommand.
  - injection S as <-. unfold setRotationSpeed.
    rewrite test_mode_sendCommand. now destruct (_ =? _)%float.
  - injection S as <-. unfold setBrightness.
    rewrite test_mode_sendCommand. now destruct (_ =? _)%float.
  - unfold settle in S. destruct (nth_error (inflight a) i); [|discriminate].
    injection S as <-. now rewrite test_mode_then_catch_finally.
Qed.

Lemma test_mode_run (events : list Event) :
  forall a a', run a events = Some a' -> test_mode a' = test_mode a.
Proof.
  induction events as [|e rest IH]; intros a a' R; cbn in R.
  - now injection R as <-.
  - destruct (step a e) as [a1|] eqn:S; [|discriminate].
    rewrite (IH a1 a' R). exact (test_mode_step e a a1 S).
Qed.

(** Lines 116-124: an absent field is replaced by the reserved value. *)
Lemma test_mode_constructor (config : AccessoryConfig) :
  selects_test_mode (cfg_rfbridge config) || selects_test_mode (cfg_remote config)
    = true ->
  test_mode (constructor config) = true.
Proof.
  destruct config as [v rb rm]. unfold test_mode. cbn [constructor rfbridge remote
    cfg_rfbridge cfg_remote]. intros H. apply orb_true_iff.
  apply orb_prop in H as [H | H]; [left | right].
  - destruct rb as [s|]; [|reflexivity].
    apply String.eqb_eq in H. now subst s.
  - destruct rm as [s|]; [|reflexivity].
    apply String.eqb_eq in H. now subst s.
Qed.

End TestMode.

(** Claim C8. When test mode is active (the bridge host or the device
    address equals ["test"], or either field is absent from the
    configuration), no transport call ever occurs: in every state the
    accessory reaches nothing was ever handed to the transport, nothing
    is outstanding, and the queue is empty; every further enqueue is
    logged as queued and as sent in test mode, and leaves the queue empty
    again. *)
Theorem test_mode_never_transmits
  (config : AccessoryConfig) (events : list Event) (a : Accessory) :
  selects_test_mode (cfg_rfbridge config) || selects_test_mode (cfg_remote config)
    = true ->
  run (constructor config) events = Some a ->
  test_mode a = true /\
  requests a = [] /\ inflight a = [] /\
  pendingCommand a = false /\ commandQueue a = [] /\
  (forall c url,
     let entry := {| command := c; targetUrl := url |} in
     requests (addCommand c url a) = [] /\
     inflight (addCommand c url a) = [] /\
     commandQueue (addCommand c url a) = [] /\
     logged (addCommand c url a)
       = (logged a ++ [InfoQueued entry; InfoTestMode entry])%list).
Proof.
  intros C R.
  assert (T : test_mode a = true).
  { rewrite (test_mode_run events _ _ R). now apply test_mode_constructor. }
  destruct (reachable_invariant _ _ _ R) as (H & D & S).
  apply single_flight_cases in H as [[P I] | (_ & T' & _)]; [|congruence].
  split; [exact T|]. split; [exact (S T)|]. split; [exact I|].
  split; [exact P|]. split; [exact (D P)|].
  intros c url entry.
  destruct (addCommand_test_mode c url a P (D P) T) as (E1 & E2 & E3 & _ & E5).
  rewrite E1, E2, (S T), I. now repeat split.
Qed.

Lemma test_mode_never_transmits_witness :
  let config := {| cfg_verbose := None; cfg_rfbridge := None;
                   cfg_remote := Some "0" |} in
  let events := [CallSendCommand (JSNumber FAN_SPEED1);
                 CallSendCommand (JSNumber FAN_OFF)] in
  let a := sendCommand (JSNumber FAN_OFF)
             (sendCommand (JSNumber FAN_SPEED1) (constructor config)) in
  selects_test_mode (cfg_rfbridge config) || selects_test_mode (cfg_remote config)
    = true /\
  run (constructor config) events = Some a /\
  requests a = [] /\ commandQueue a = [].
Proof.
  intros config events a. split; [reflexivity|]. split; [reflexivity|].
  destruct (test_mode_never_transmits config events a eq_refl eq_refl)
    as (_ & Rq & _ & _ & Q & _).
  split; [exact Rq | exact Q].
Defined.

(** Claim C9. A call of [sendCommand] with the command -1 or with a value
    that is not a number builds no payload and adds no entry: the call
    returns the accessory unchanged, so the queue and the in-flight flag
    (and the log and the transport) are exactly as before. *)
Theorem invalid_command_is_ignored (arg : JSValue) (a : Accessory) :
  arg = JSNumber (-1) \/ typeof arg <> "number" ->
  sendCommand arg a = a /\
  commandQueue (sendCommand arg a) = commandQueue a /\
  pendingCommand (sendCommand arg a) = pendingCommand a.
Proof.
  intros H. now rewrite (sendCommand_invalid arg a H).
Qed.

Lemma invalid_command_is_ignored_witness :
  let a := sendCommand (JSNumber FAN_SPEED1) (constructor sample_config) in
  (JSString "98" = JSNumber (-1) \/ typeof (JSString "98") <> "number") /\
  sendCommand (JSString "98") a = a.
Proof.
  intros a.
  assert (H : JSString "98" = JSNumber (-1) \/ typeof (JSString "98") <> "number")
    by (right; discriminate).
  split; [exact H|].
  exact (proj1 (invalid_command_is_ignored (JSString "98") a H)).
Defined.

(** Claim C10. A SET of RotationSpeed or of Brightness whose scaled value
    ([value / 33.33], [value / 12]) is not an integer index of the
    command table (3.0003... for the speed 100, 9 for the brightness 108)
    looks up [undefined]; [sendCommand] then takes its no-op branch:
    nothing is enqueued, the flag and the transport are untouched, and
    the handler returns normally. *)
Theorem out_of_table_level_is_ignored (speed brightness : float) (a : Accessory) :
  table_index (List.length fan_commands) (speed / fanStep) = None ->
  table_index (List.length light_commands) (brightness / 12) = None ->
  (array_get fan_commands (speed / fanStep) = JSUndefined /\
   same_dispatch_state a (setRotationSpeed speed a)) /\
  (array_get light_commands (brightness / 12) = JSUndefined /\
   same_dispatch_state a (setBrightness brightness a)).
Proof.
  intros Hs Hb.
  assert (Us : array_get fan_commands (speed / fanStep) = JSUndefined)
    by (unfold array_get; now rewrite Hs).
  assert (Ub : array_get light_commands (brightness / 12) = JSUndefined)
    by (unfold array_get; now rewrite Hb).
  split; (split; [assumption|]).
  - unfold setRotationSpeed. rewrite Us, sendCommand_invalid by (right; discriminate).
    destruct (_ =? _)%float; now repeat split.
  - unfold setBrightness. rewrite Ub, sendCommand_invalid by (right; discriminate).
    destruct (_ =? _)%float; now repeat split.
Qed.

Lemma out_of_table_level_is_ignored_witness :
  let a := constructor sample_config in
  table_index (List.length fan_commands) (100 / fanStep) = None /\
  table_index (List.length light_commands) (108 / 12) = None /\
  same_dispatch_state a (setRotationSpeed 100 a) /\
  same_dispatch_state a (setBrightness 108 a).
Proof.
  intros a. split; [reflexivity|]. split; [reflexivity|].
  destruct (out_of_table_level_is_ignored 100 108 a eq_refl eq_refl)
    as ((_ & S) & (_ & B)).
  split; [exact S | exact B].
Defined.

Example speed_100_is_not_an_index :
  integer_of (100 / fanStep) = None /\ integer_of (99.99 / fanStep) = Some 3 /\
  array_get fan_commands (99.99 / fanStep) = JSNumber FAN_SPEED3 /\
  integer_of (108 / 12) = Some 9.
Proof. repeat split. Qed.

(* ================================================================= *)
(** * The claim about the target URL *)

(** Claim C2. For every command code in [0, 1023] and every bridge host
    and device address, the entry that [sendCommand] queues (while a
    transmission is in flight) or hands to the transport at once (when
    idle and not in test mode) carries the URL
    ['http://' + bridgeHost + '/cm?cmnd=rfraw%20'] followed by the fixed
    header literal of line 365, the room block, the command block, the
    inverse-command block and the trailer [55]. Written out, the three
    blocks are the token substitutions of the zero-padded address and of
    the 10-character binary string of the command, which reads back as
    the command. For the command 98 and the address ["0"] the descriptor
    is the golden value below. *)
Theorem target_url_of_sent_command (a : Accessory) (c : Z) :
  0 <= c <= 1023 ->
  let url :=
    "http://" ++ rfbridge a ++ "/cm?cmnd=rfraw%20"
      ++ "AAB0580403018813E803106510808080808080808080808081"
      ++ room (remote a) ++ rfrawCommand c ++ rfrawInverseCommand c ++ "55" in
  let entry := {| command := c; targetUrl := url |} in
  (pendingCommand a = true ->
     commandQueue (sendCommand (JSNumber c) a) = (commandQueue a ++ [entry])%list) /\
  (pendingCommand a = false -> test_mode a = false ->
     requests (sendCommand (JSNumber c) a) = (requests a ++ [entry])%list) /\
  (let bits := zero_padded 10 (toString2 c) in
   String.length bits = 10%nat /\ binary_value bits = Some c /\
   url =
     "http://" ++ rfbridge a ++ "/cm?cmnd=rfraw%20"
       ++ "AAB0580403018813E803106510808080808080808080808081"
       ++ ("A0" ++ substitute "82" "A0" (zero_padded 40 (remote a)) ++ "82")
       ++ ("82" ++ substitute "82" "A0" bits ++ "A0")
       ++ ("A0" ++ substitute "A0" "82" bits ++ "83")
       ++ "55") /\
  descriptor "0" 98 =
    "AAB0580403018813E803106510808080808080808080808081"
      ++ "A0" ++ "82828282828282828282828282828282828282828282828282828282828282828282828282828282" ++ "82"
      ++ "82" ++ "828282A0A0828282A082" ++ "A0"
      ++ "A0" ++ "A0A0A08282A0A0A082A0" ++ "83"
      ++ "55".
Proof.
  intros Hc url entry.
  assert (E : sendCommand (JSNumber c) a =
              addCommand c url (if verbose a then log (InfoSendCommand c) a else a))
    by (rewrite sendCommand_valid by lia; reflexivity).
  rewrite E. unfold addCommand. fold entry. split; [|split; [|split]].
  - intros P. destruct (verbose a);
      rewrite runNextCommand_pending by exact P; reflexivity.
  - intros P T. destruct (verbose a).
    + rewrite (runNextCommand_transmit
                 (log (InfoQueued entry)
                    (set_commandQueue
                       (commandQueue (log (InfoSendCommand c) a) ++ [entry])%list
                       (log (InfoSendCommand c) a)))
                 (commandQueue a) entry P T eq_refl).
      reflexivity.
    + rewrite (runNextCommand_transmit
                 (log (InfoQueued entry)
                    (set_commandQueue (commandQueue a ++ [entry])%list a))
                 (commandQueue a) entry P T eq_refl).
      reflexivity.
  - cbv zeta. rewrite <- encode10_zero_padded.
    destruct (encode10_width_value c Hc) as [L V].
    split; [exact L|]. split; [exact V|].
    unfold url. rewrite room_as_one_pass, rfrawCommand_as_one_pass,
      rfrawInverseCommand_as_one_pass.
    unfold spec_room_block, spec_command_block.
    rewrite <- encode10_zero_padded. reflexivity.
  - vm_compute. reflexivity.
Qed.

Lemma target_url_of_sent_command_witness :
  let a := constructor sample_config in
  0 <= FAN_OFF <= 1023 /\
  pendingCommand a = false /\ test_mode a = false /\
  map targetUrl (requests (sendCommand (JSNumber FAN_OFF) a)) =
    ["http://bridge/cm?cmnd=rfraw%20" ++ descriptor "0" FAN_OFF].
Proof.
  intros a.
  assert (Hc : 0 <= FAN_OFF <= 1023) by (unfold FAN_OFF; lia).
  split; [exact Hc|]. split; [reflexivity|]. split; [reflexivity|].
  destruct (target_url_of_sent_command a FAN_OFF Hc) as (_ & Idle & _).
  rewrite (Idle eq_refl eq_refl). vm_compute. reflexivity.
Defined.

(* ================================================================= *)
(** * Further properties of the encoding *)

Section EncodingAtLarge.

Lemma size_nat_gt (p : positive) :
  forall n : nat, 2 ^ Z.of_nat n <= Z.pos p -> (n < Pos.size_nat p)%nat.
Proof.
  induction p as [q IH | q IH |]; intros [|n] H;
    cbn [Pos.size_nat]; rewrite ?Nat2Z.inj_succ, ?Z.pow_succ_r in H by lia;
    try (apply -> Nat.succ_lt_mono; apply IH); lia.
Qed.

Lemma padStart_long (w : nat) (f s : string) :
  (w <= String.length s)%nat -> padStart w f s = s.
Proof.
  intros H. unfold padStart. now rewrite (proj2 (Nat.leb_le _ _) H).
Qed.

Lemma is_binary_app (s t : string) :
  is_binary (s ++ t) = is_binary s && is_binary t.
Proof.
  induction s as [|c s IH]; cbn; [reflexivity|].
  now rewrite IH, andb_assoc.
Qed.

Lemma is_binary_fill (n : nat) : is_binary (fill "0" n) = true.
Proof. induction n as [|n IH]; [reflexivity | exact IH]. Qed.

Lemma is_binary_bits (p : positive) : is_binary (bits_of_pos p) = true.
Proof.
  induction p as [q IH | q IH |]; cbn; rewrite ?is_binary_app, ?IH; reflexivity.
Qed.

Lemma is_binary_encode10 (c : Z) : 0 <= c -> is_binary (encode10 c) = true.
Proof.
  intros H. rewrite encode10_zero_padded. unfold zero_padded.
  rewrite is_binary_app, is_binary_fill.
  destruct c as [|p|p]; cbn; [reflexivity | apply is_binary_bits | lia].
Qed.

(** Two-character tokens double the length of a binary string. *)
Lemma length_substitute (zero one s : string) :
  String.length zero = 2%nat -> String.length one = 2%nat ->
  is_binary s = true ->
  String.length (substitute zero one s) = (2 * String.length s)%nat.
Proof.
  intros Hz Ho. induction s as [|c s IH]; cbn [substitute is_binary]; intros B;
    [reflexivity|].
  apply andb_prop in B as [Bc Bs]. rewrite length_append, (IH Bs).
  destruct (Ascii.eqb c "0"); [cbn; lia|].
  destruct (Ascii.eqb c "1"); [cbn; lia | discriminate].
Qed.

Lemma fill_shift (c : ascii) (n : nat) (s : string) :
  fill c n ++ String c s = fill c (S n) ++ s.
Proof.
  induction n as [|n IH]; cbn; [reflexivity|]. f_equal. exact IH.
Qed.

Lemma append_cancel_l (s t u : string) : s ++ t = s ++ u -> t = u.
Proof.
  induction s as [|c s IH]; cbn; intros H; [exact H|].
  injection H as H. now apply IH.
Qed.

(** Strings of equal length that start two equal concatenations are
    equal, and so are the rests. *)
Lemma append_split (s1 s2 t1 t2 : string) :
  String.length s1 = String.length s2 -> s1 ++ t1 = s2 ++ t2 ->
  s1 = s2 /\ t1 = t2.
Proof.
  revert s2. induction s1 as [|c s1 IH]; intros [|d s2] L H;
    cbn in *; try discriminate; [now split|].
  injection H as -> H. injection L as L.
  destruct (IH s2 L H) as [-> ->]. now split.
Qed.

(** Distinct tokens of the same length keep binary strings apart. *)
Lemma substitute_injective (s t : string) :
  is_binary s = true -> is_binary t = true ->
  substitute "82" "A0" s = substitute "82" "A0" t -> s = t.
Proof.
  revert t. induction s as [|c s IH]; intros [|d t] Bs Bt H.
  - reflexivity.
  - cbn in Bt, H. apply andb_prop in Bt as [Bd _].
    destruct (Ascii.eqb d "0"); [discriminate|].
    destruct (Ascii.eqb d "1"); discriminate.
  - cbn in Bs, H. apply andb_prop in Bs as [Bc _].
    destruct (Ascii.eqb c "0"); [discriminate|].
    destruct (Ascii.eqb c "1"); discriminate.
  - cbn [is_binary] in Bs, Bt. cbn [substitute] in H.
    apply andb_prop in Bs as [Bc Bs]. apply andb_prop in Bt as [Bd Bt].
    destruct (Ascii.eqb_spec c "0") as [-> | Nc0];
      destruct (Ascii.eqb_spec d "0") as [-> | Nd0].
    + cbn in H. injection H as H. f_equal. now apply IH.
    + destruct (Ascii.eqb_spec d "1") as [-> | Nd1]; [|discriminate].
      cbn in H. discriminate.
    + destruct (Ascii.eqb_spec c "1") as [-> | Nc1]; [|discriminate].
      cbn in H. discriminate.
    + destruct (Ascii.eqb_spec c "1") as [-> | Nc1]; [|discriminate].
      destruct (Ascii.eqb_spec d "1") as [-> | Nd1]; [|discriminate].
      cbn in H. injection H as H. f_equal. now apply IH.
Qed.

Lemma binary_value_encode10 (v : Z) : 0 <= v -> binary_value (encode10 v) = Some v.
Proof.
  intros H. rewrite encode10_zero_padded. unfold binary_value.
  destruct (zero_padded 10 (toString2 v)) eqn:E.
  - now apply zero_padded_nonempty in E.
  - rewrite <- E. unfold zero_padded.
    rewrite binary_value_from_fill. now apply binary_value_from_toString2.
Qed.

Lemma length_rfrawCommand (c : Z) :
  0 <= c <= 1023 -> String.length (rfrawCommand c) = 24%nat.
Proof.
  intros H. rewrite rfrawCommand_as_one_pass. unfold spec_command_block.
  rewrite <- encode10_zero_padded, !length_append, length_substitute;
    try reflexivity; [|apply is_binary_encode10; lia].
  rewrite (proj1 (encode10_width_value c H)). reflexivity.
Qed.

Lemma length_rfrawInverseCommand (c : Z) :
  0 <= c <= 1023 -> String.length (rfrawInverseCommand c) = 24%nat.
Proof.
  intros H. rewrite rfrawInverseCommand_as_one_pass.
  rewrite !length_append, length_substitute;
    try reflexivity; [|apply is_binary_encode10; lia].
  rewrite (proj1 (encode10_width_value c H)). reflexivity.
Qed.

Lemma rfrawCommand_injective (c1 c2 : Z) :
  0 <= c1 -> 0 <= c2 -> rfrawCommand c1 = rfrawCommand c2 -> c1 = c2.
Proof.
  intros H1 H2 E. rewrite !rfrawCommand_as_one_pass in E.
  unfold spec_command_block in E. rewrite <- !encode10_zero_padded in E.
  apply append_cancel_l in E.
  assert (S : substitute "82" "A0" (encode10 c1) = substitute "82" "A0" (encode10 c2)).
  { revert E. generalize (substitute "82" "A0" (encode10 c1)).
    generalize (substitute "82" "A0" (encode10 c2)). intros t s E.
    assert (L : String.length s = String.length t).
    { apply (f_equal String.length) in E. rewrite !length_append in E. cbn in E. lia. }
    now destruct (append_split s t "A0" "A0" L E). }
  apply substitute_injective in S; try (apply is_binary_encode10; assumption).
  assert (V : binary_value (encode10 c1) = binary_value (encode10 c2)) by now rewrite S.
  rewrite !binary_value_encode10 in V by assumption. now injection V.
Qed.

Lemma target_injective (host address : string) (c1 c2 : Z) :
  0 <= c1 <= 1023 -> 0 <= c2 <= 1023 ->
  target host address c1 = target host address c2 -> c1 = c2.
Proof.
  intros H1 H2 E. unfold target, descriptor in E.
  do 5 apply append_cancel_l in E.
  apply append_split in E as [E _];
    [|now rewrite !length_rfrawCommand].
  apply rfrawCommand_injective in E; lia.
Qed.

End EncodingAtLarge.

(** The binary form of line 363 at any magnitude. For every non-negative
    integer the padded string reads back as the number; up to 1023 it has
    10 characters, and from 1024 on [padStart] leaves the longer string
    of [toString(2)] as it is: nothing is truncated. *)
Theorem encode10_never_truncates (v : Z) :
  0 <= v ->
  binary_value (encode10 v) = Some v /\
  (v <= 1023 -> String.length (encode10 v) = 10%nat) /\
  (1024 <= v ->
     encode10 v = toString2 v /\ (10 < String.length (encode10 v))%nat).
Proof.
  intros H. split; [now apply binary_value_encode10|]. split.
  - intros B. apply encode10_width_value. lia.
  - intros B.
    assert (L : (10 < String.length (toString2 v))%nat).
    { destruct v as [|p|p]; try lia. cbn. rewrite length_bits_of_pos.
      apply size_nat_gt. change (2 ^ Z.of_nat 10) with 1024. lia. }
    unfold encode10. rewrite padStart_long by lia. now split.
Qed.

Lemma encode10_never_truncates_witness :
  0 <= 1024 /\
  binary_value (encode10 1024) = Some 1024 /\
  encode10 1024 = "10000000000".
Proof.
  assert (H : 0 <= 1024) by lia. split; [exact H|].
  destruct (encode10_never_truncates 1024 H) as (V & _ & L).
  split; [exact V|]. destruct L as [E _]; [lia|]. rewrite E. reflexivity.
Defined.

(** The frame has a fixed size. For a device address of at most 40
    binary digits and a command code in [0, 1023], the room block has 84
    characters, the command block and the inverse-command block 24 each,
    and the descriptor 184. *)
Theorem descriptor_has_fixed_length (address : string) (c : Z) :
  is_binary address = true ->
  (String.length address <= 40)%nat ->
  0 <= c <= 1023 ->
  String.length (room address) = 84%nat /\
  String.length (rfrawCommand c) = 24%nat /\
  String.length (rfrawInverseCommand c) = 24%nat /\
  String.length (descriptor address c) = 184%nat.
Proof.
  intros B L H.
  assert (R : String.length (room address) = 84%nat).
  { rewrite room_as_one_pass. unfold spec_room_block.
    rewrite !length_append, length_substitute; try reflexivity.
    - rewrite length_zero_padded by exact L. reflexivity.
    - unfold zero_padded. now rewrite is_binary_app, is_binary_fill. }
  split; [exact R|].
  split; [now apply length_rfrawCommand|].
  split; [now apply length_rfrawInverseCommand|].
  unfold descriptor. rewrite !length_append, R, length_rfrawCommand,
    length_rfrawInverseCommand by exact H. reflexivity.
Qed.

Lemma descriptor_has_fixed_length_witness :
  is_binary "1010" = true /\ (String.length "1010" <= 40)%nat /\
  0 <= 98 <= 1023 /\
  String.length (descriptor "1010" 98) = 184%nat.
Proof.
  assert (L : (String.length "1010" <= 40)%nat) by (cbn; lia).
  assert (H : 0 <= 98 <= 1023) by lia.
  split; [reflexivity|]. split; [exact L|]. split; [exact H|].
  exact (proj2 (proj2 (proj2
    (descriptor_has_fixed_length "1010" 98 eq_refl L H)))).
Defined.

(** Distinct commands never share a URL: for one bridge host and one
    device address, the target URL determines the command code. *)
Theorem target_determines_command (host address : string) (c1 c2 : Z) :
  0 <= c1 <= 1023 -> 0 <= c2 <= 1023 ->
  target host address c1 = target host address c2 -> c1 = c2.
Proof. apply target_injective. Qed.

Lemma target_determines_command_witness :
  0 <= FAN_SPEED1 <= 1023 /\ 0 <= FAN_SPEED2 <= 1023 /\
  (target "bridge" "0" FAN_SPEED1 = target "bridge" "0" FAN_SPEED2 ->
   FAN_SPEED1 = FAN_SPEED2).
Proof.
  assert (H1 : 0 <= FAN_SPEED1 <= 1023) by (unfold FAN_SPEED1; lia).
  assert (H2 : 0 <= FAN_SPEED2 <= 1023) by (unfold FAN_SPEED2; lia).
  split; [exact H1|]. split; [exact H2|].
  exact (target_determines_command "bridge" "0" FAN_SPEED1 FAN_SPEED2 H1 H2).
Defined.

(** Leading zeros of the device address are not significant: an address
    shorter than 40 characters and the same address with a [0] in front
    give the same room block, hence the same URL for every command. *)
Theorem leading_zero_of_address_is_ignored (host address : string) (c : Z) :
  (String.length address < 40)%nat ->
  room (String "0" address) = room address /\
  target host (String "0" address) c = target host address c.
Proof.
  intros L.
  assert (R : room (String "0" address) = room address).
  { unfold room. rewrite !padStart_zero. unfold zero_padded.
    cbn [String.length].
    replace (40 - String.length address)%nat
      with (S (40 - S (String.length address)))%nat by lia.
    now rewrite fill_shift. }
  split; [exact R|]. unfold target, descriptor. now rewrite R.
Qed.

Lemma leading_zero_of_address_is_ignored_witness :
  (String.length "101" < 40)%nat /\
  target "bridge" "0101" FAN_OFF = target "bridge" "101" FAN_OFF.
Proof.
  assert (L : (String.length "101" < 40)%nat) by (cbn; lia).
  split; [exact L|].
  exact (proj2 (leading_zero_of_address_is_ignored "bridge" "101" FAN_OFF L)).
Defined.

(** Every entry of [COMMANDS] is a 10-bit code other than the sentinel,
    and no two entries are equal: each named command has a URL of its
    own, with a well-formed 184-character descriptor. *)
Theorem command_table_is_well_formed (host address : string) (c1 c2 : Z) :
  In c1 COMMANDS -> In c2 COMMANDS ->
  0 <= c1 <= 1023 /\ c1 <> -1 /\
  String.length (encode10 c1) = 10%nat /\
  NoDup COMMANDS /\
  (target host address c1 = target host address c2 -> c1 = c2).
Proof.
  intros I1 I2.
  assert (B : forall c, In c COMMANDS -> 0 <= c <= 1023).
  { intros c I. cbv in I. repeat (destruct I as [<- | I]; [lia|]). contradiction. }
  pose proof (B c1 I1) as H1. pose proof (B c2 I2) as H2.
  split; [exact H1|]. split; [lia|].
  split; [now apply encode10_width_value|]. split.
  - unfold COMMANDS. repeat constructor; cbv; intuition discriminate.
  - now apply target_injective.
Qed.

Lemma command_table_is_well_formed_witness :
  In LIGHT_TOGGLE COMMANDS /\ In FAN_SPEED_DECREASE COMMANDS /\
  0 <= LIGHT_TOGGLE <= 1023.
Proof.
  assert (I1 : In LIGHT_TOGGLE COMMANDS) by (cbv; tauto).
  assert (I2 : In FAN_SPEED_DECREASE COMMANDS) by (cbv; tauto).
  split; [exact I1|]. split; [exact I2|].
  exact (proj1 (command_table_is_well_formed "bridge" "0" _ _ I1 I2)).
Defined.

(* ================================================================= *)
(** * Further properties of the queue and the dispatcher *)

Section Conservation.

Lemma queued_of_app (l r : list LogEntry) :
  queued_of (l ++ r) = (queued_of l ++ queued_of r)%list.
Proof.
  induction l as [|e l IH]; [reflexivity|].
  destruct e; cbn; now rewrite IH.
Qed.

Lemma test_sent_of_app (l r : list LogEntry) :
  test_sent_of (l ++ r) = (test_sent_of l ++ test_sent_of r)%list.
Proof.
  induction l as [|e l IH]; [reflexivity|].
  destruct e; cbn; now rewrite IH.
Qed.

(** Logging a line that is neither "queued" nor "sent in test mode"
    changes nothing in the account. *)
Lemma conserved_log (e : LogEntry) (a : Accessory) :
  queued_of [e] = [] -> test_sent_of [e] = [] ->
  conserved a -> conserved (log e a).
Proof.
  intros Q T H. unfold conserved in *. fields.
  now rewrite queued_of_app, test_sent_of_app, Q, T, !List.app_nil_r.
Qed.

Lemma conserved_runNextCommand (a : Accessory) :
  conserved a -> conserved (runNextCommand a).
Proof.
  intros H. destruct (pendingCommand a) eqn:P.
  - now rewrite (runNextCommand_pending a P).
  - destruct (snoc_cases (commandQueue a)) as [E | (q & e & E)].
    + now rewrite (runNextCommand_empty a E).
    + unfold conserved in *. rewrite E in H.
      destruct (test_mode a) eqn:T.
      * rewrite (runNextCommand_test_mode a q e P T E). fields.
        rewrite queued_of_app, test_sent_of_app. cbn [queued_of test_sent_of].
        rewrite List.app_nil_r. rewrite H.
        apply Permutation_app_head.
        rewrite <- !List.app_assoc. apply Permutation_app_head.
        apply Permutation_app_comm.
      * rewrite (runNextCommand_transmit a q e P T E). fields.
        rewrite H, <- !List.app_assoc. apply Permutation_app_head.
        rewrite (List.app_assoc (test_sent_of (logged a)) q [e]).
        apply Permutation_sym, Permutation_cons_append.
Qed.

Lemma conserved_addCommand (c : Z) (url : string) (a : Accessory) :
  conserved a -> conserved (addCommand c url a).
Proof.
  intros H. unfold addCommand. apply conserved_runNextCommand.
  unfold conserved in *. fields.
  rewrite queued_of_app, test_sent_of_app. cbn [queued_of test_sent_of].
  rewrite List.app_nil_r, !List.app_assoc.
  apply Permutation_app_tail. now rewrite <- List.app_assoc.
Qed.

Lemma conserved_sendCommand (arg : JSValue) (a : Accessory) :
  conserved a -> conserved (sendCommand arg a).
Proof.
  intros H. unfold sendCommand.
  destruct (strict_eq_number _ _ || _); [assumption|].
  destruct arg; try assumption; apply conserved_addCommand;
    destruct (verbose a); trivial; now apply conserved_log.
Qed.

Lemma conserved_step (e : Event) (a a' : Accessory) :
  conserved a -> step a e = Some a' -> conserved a'.
Proof.
  intros H S. destruct e as [arg | c url | | value | value | i o]; cbn in S.
  - injection S as <-. now apply conserved_sendCommand.
  - injection S as <-. now apply conserved_addCommand.
  - injection S as <-. now apply conserved_runNextCommand.
  - injection S as <-. apply conserved_sendCommand.
    destruct (_ =? _)%float; [exact H | now apply conserved_log].
  - injection S as <-. apply conserved_sendCommand.
    destruct (_ =? _)%float; [exact H | now apply conserved_log].
  - unfold settle in S. destruct (nth_error (inflight a) i) as [c|]; [|discriminate].
    injection S as <-. apply conserved_runNextCommand.
    assert (H1 : conserved (set_inflight (drop_nth i (inflight a)) a)) by exact H.
    destruct o as [body | error]; cbn [then_catch].
    + destruct (verbose _); [|exact H1]. now apply conserved_log.
    + now apply conserved_log.
Qed.

Lemma conserved_run (events : list Event) :
  forall a a', conserved a -> run a events = Some a' -> conserved a'.
Proof.
  induction events as [|e rest IH]; intros a a' H R; cbn in R.
  - now injection R as <-.
  - destruct (step a e) as [a1|] eqn:S; [|discriminate].
    exact (IH a1 a' (conserved_step e a a1 H S) R).
Qed.

Lemma conserved_constructor (config : AccessoryConfig) :
  conserved (constructor config).
Proof.
  unfold conserved. cbn [constructor logged requests commandQueue].
  rewrite queued_of_app, test_sent_of_app.
  destruct (truthy (cfg_rfbridge config)), (truthy (cfg_remote config));
    cbn; constructor.
Qed.

End Conservation.

(** No queued command is lost or sent twice. In every state the
    accessory can reach, the entries logged as queued are, up to order,
    the entries handed to the transport, those logged as sent in test
    mode and those still in the queue; once the accessory is idle, every
    queued entry has been sent (or logged as sent in test mode). *)
Theorem no_command_lost_or_duplicated
  (config : AccessoryConfig) (events : list Event) (a : Accessory) :
  run (constructor config) events = Some a ->
  Permutation (queued_of (logged a))
              (requests a ++ test_sent_of (logged a) ++ commandQueue a)%list /\
  (pendingCommand a = false ->
   Permutation (queued_of (logged a)) (requests a ++ test_sent_of (logged a))%list).
Proof.
  intros R.
  assert (C : conserved a)
    by exact (conserved_run events _ _ (conserved_constructor config) R).
  split; [exact C|].
  intros P. destruct (reachable_invariant _ _ _ R) as (_ & D & _).
  unfold conserved in C. now rewrite (D P), List.app_nil_r in C.
Qed.

Lemma no_command_lost_or_duplicated_witness :
  let events := [CallSendCommand (JSNumber FAN_SPEED1);
                 CallSendCommand (JSNumber LIGHT_ON)] in
  let a := sendCommand (JSNumber LIGHT_ON)
             (sendCommand (JSNumber FAN_SPEED1) (constructor sample_config)) in
  run (constructor sample_config) events = Some a /\
  Permutation (queued_of (logged a))
              (requests a ++ test_sent_of (logged a) ++ commandQueue a)%list.
Proof.
  intros events a. split; [reflexivity|].
  exact (proj1 (no_command_lost_or_duplicated sample_config events a eq_refl)).
Defined.

(** The flag tells the truth. In every reachable state the in-flight
    flag is set exactly when one request is outstanding, and an idle
    accessory has an empty queue: no command waits while nothing is
    being sent. *)
Theorem idle_accessory_has_nothing_queued
  (config : AccessoryConfig) (events : list Event) (a : Accessory) :
  run (constructor config) events = Some a ->
  (pendingCommand a = true <-> exists c, inflight a = [c]) /\
  (pendingCommand a = false <-> inflight a = []) /\
  (pendingCommand a = false -> commandQueue a = []).
Proof.
  intros R. destruct (reachable_invariant _ _ _ R) as (H & D & _).
  apply single_flight_cases in H.
  split; [|split; [|exact D]].
  - split.
    + intros P. destruct H as [[P' _] | (_ & _ & c & I)]; [congruence | eauto].
    + intros [c I]. destruct H as [[_ I'] | (P & _)]; [congruence | exact P].
  - split.
    + intros P. destruct H as [[_ I] | (P' & _)]; [exact I | congruence].
    + intros I. destruct H as [[P _] | (_ & _ & c & I')]; [exact P | congruence].
Qed.

Lemma idle_accessory_has_nothing_queued_witness :
  let events := [CallSendCommand (JSNumber FAN_SPEED1);
                 CallSendCommand (JSNumber LIGHT_ON)] in
  let first := {| command := FAN_SPEED1;
                  targetUrl := target "bridge" "0" FAN_SPEED1 |} in
  let second := {| command := LIGHT_ON;
                   targetUrl := target "bridge" "0" LIGHT_ON |} in
  let busy := sendCommand (JSNumber LIGHT_ON)
                (sendCommand (JSNumber FAN_SPEED1) (constructor sample_config)) in
  let later := finally (then_catch first (Rejected "EHOSTUNREACH")
                          (set_inflight [] busy)) in
  let idle := finally (then_catch second (Fulfilled "ok")
                         (set_inflight [] later)) in
  (run (constructor sample_config) events = Some busy /\
   inflight busy = [first] /\ commandQueue busy = [second] /\
   pendingCommand busy = true) /\
  (run (constructor sample_config)
       (events ++ [Settle 0 (Rejected "EHOSTUNREACH")])%list = Some later /\
   inflight later = [second] /\ pendingCommand later = true) /\
  (run (constructor sample_config)
       (events ++ [Settle 0 (Rejected "EHOSTUNREACH");
                   Settle 0 (Fulfilled "ok")])%list = Some idle /\
   pendingCommand idle = false /\ inflight idle = [] /\ commandQueue idle = []).
Proof.
  intros events first second busy later idle.
  assert (Rb : run (constructor sample_config) events = Some busy)
    by (vm_compute; reflexivity).
  assert (Rl : run (constructor sample_config)
                 (events ++ [Settle 0 (Rejected "EHOSTUNREACH")])%list = Some later)
    by (vm_compute; reflexivity).
  assert (Ri : run (constructor sample_config)
                 (events ++ [Settle 0 (Rejected "EHOSTUNREACH");
                             Settle 0 (Fulfilled "ok")])%list = Some idle)
    by (vm_compute; reflexivity).
  assert (Ib : inflight busy = [first]) by (vm_compute; reflexivity).
  assert (Il : inflight later = [second]) by (vm_compute; reflexivity).
  assert (Pi : pendingCommand idle = false) by (vm_compute; reflexivity).
  destruct (idle_accessory_has_nothing_queued sample_config _ busy Rb)
    as (Fb & _ & _).
  destruct (idle_accessory_has_nothing_queued sample_config _ later Rl)
    as (Fl & _ & _).
  destruct (idle_accessory_has_nothing_queued sample_config _ idle Ri)
    as (_ & Fi & Qi).
  split; [|split].
  - split; [exact Rb|]. split; [exact Ib|].
    split; [vm_compute; reflexivity|].
    apply (proj2 Fb). exists first. exact Ib.
  - split; [exact Rl|]. split; [exact Il|].
    apply (proj2 Fl). exists second. exact Il.
  - split; [exact Ri|]. split; [exact Pi|].
    split; [exact (proj1 Fi Pi) | exact (Qi Pi)].
Defined.

(** [sendCommand] does nothing exactly for the sentinel -1 and for
    values that are not numbers: every other number, negative ones
    included, is logged as queued with its URL. *)
Theorem sendCommand_ignores_only_invalid (arg : JSValue) (a : Accessory) :
  (sendCommand arg a = a <-> arg = JSNumber (-1) \/ typeof arg <> "number") /\
  (forall c, arg = JSNumber c -> c <> -1 ->
     In (InfoQueued {| command := c;
                       targetUrl := target (rfbridge a) (remote a) c |})
        (logged (sendCommand arg a))).
Proof.
  assert (Grow : forall b, (List.length (logged b)
                            <= List.length (logged (runNextCommand b)))%nat).
  { intros b. unfold runNextCommand.
    destruct (negb (pendingCommand b)); [|lia].
    destruct (pop (commandQueue b)) as [[e|] rest]; [|lia].
    destruct (negb (test_mode _)); fields; [lia|].
    rewrite List.length_app. lia. }
  assert (Keep : forall b e, In e (logged b) -> In e (logged (runNextCommand b))).
  { intros b e I. unfold runNextCommand.
    destruct (negb (pendingCommand b)); [|exact I].
    destruct (pop (commandQueue b)) as [[x|] rest]; [|exact I].
    destruct (negb (test_mode _)); fields; [exact I|].
    apply in_or_app. now left. }
  split; [split|].
  - intros E. destruct arg as [| | b | s | c];
      try (right; discriminate).
    destruct (Z.eq_dec c (-1)) as [-> | N]; [now left|]. exfalso.
    rewrite (sendCommand_valid c a N) in E.
    apply (f_equal (fun x => List.length (logged x))) in E.
    unfold addCommand in E.
    match type of E with
    | List.length (logged (runNextCommand ?b)) = _ => pose proof (Grow b) as G
    end.
    rewrite E in G. revert G. destruct (verbose a); fields;
      rewrite !List.length_app; cbn; lia.
  - apply sendCommand_invalid.
  - intros c -> N. rewrite (sendCommand_valid c a N). unfold addCommand.
    apply Keep. fields. apply in_or_app. right. now left.
Qed.

Lemma sendCommand_ignores_only_invalid_witness :
  let a := constructor sample_config in
  (-2) <> -1 /\
  In (InfoQueued {| command := -2; targetUrl := target "bridge" "0" (-2) |})
     (logged (sendCommand (JSNumber (-2)) a)) /\
  encode10 (-2) = "0000000-10".
Proof.
  intros a. assert (N : -2 <> -1) by lia.
  split; [exact N|]. split; [|reflexivity].
  exact (proj2 (sendCommand_ignores_only_invalid (JSNumber (-2)) a) (-2) eq_refl N).
Defined.

Section Independence.

(** Splits an agreement into its equations and rewrites with them. *)
Ltac agree_split :=
  match goal with
  | H : agree _ _ |- _ =>
      destruct H as (?Hrb & ?Hrm & ?Hfs & ?Hlb & ?Hp & ?Hq & ?Hi & ?Hr & ?Ht)
  end.

Lemma agree_refl (a : Accessory) : agree a a.
Proof. repeat split. Qed.

Lemma agree_test_mode (a b : Accessory) : agree a b -> test_mode a = test_mode b.
Proof. intros H. agree_split. unfold test_mode. congruence. Qed.

Lemma agree_log_l (e : LogEntry) (a b : Accessory) :
  agree a b -> agree (log e a) b.
Proof. intros H. exact H. Qed.

Lemma agree_log_r (e : LogEntry) (a b : Accessory) :
  agree a b -> agree a (log e b).
Proof. intros H. exact H. Qed.

Lemma agree_runNextCommand (a b : Accessory) :
  agree a b -> agree (runNextCommand a) (runNextCommand b).
Proof.
  intros H. pose proof (agree_test_mode a b H) as T. agree_split.
  unfold runNextCommand. rewrite <- Hp, <- Hq.
  destruct (negb (pendingCommand a)); [|now repeat split].
  destruct (pop (commandQueue a)) as [[e|] rest]; [|now repeat split].
  change (test_mode (set_commandQueue rest a)) with (test_mode a).
  change (test_mode (set_commandQueue rest b)) with (test_mode b).
  rewrite <- T. destruct (negb (test_mode a)); unfold agree; fields;
    repeat split; congruence.
Qed.

Lemma agree_addCommand (c : Z) (url : string) (a b : Accessory) :
  agree a b -> agree (addCommand c url a) (addCommand c url b).
Proof.
  intros H. unfold addCommand. apply agree_runNextCommand.
  agree_split. unfold agree. fields. repeat split; congruence.
Qed.

Lemma agree_sendCommand (arg : JSValue) (a b : Accessory) :
  agree a b -> agree (sendCommand arg a) (sendCommand arg b).
Proof.
  intros H. unfold sendCommand.
  destruct (strict_eq_number _ _ || _); [assumption|].
  assert (U : forall n, target (rfbridge a) (remote a) n
                        = target (rfbridge b) (remote b) n).
  { intros n. destruct H as (-> & -> & _). reflexivity. }
  destruct arg; try assumption; rewrite U; apply agree_addCommand;
    destruct (verbose a), (verbose b); exact H.
Qed.

Lemma agree_setRotationSpeed (value : float) (a b : Accessory) :
  agree a b -> agree (setRotationSpeed value a) (setRotationSpeed value b).
Proof.
  intros H. unfold setRotationSpeed. apply agree_sendCommand.
  agree_split. destruct (_ =? _)%float; unfold agree; fields;
    repeat split; congruence.
Qed.

Lemma agree_setBrightness (value : float) (a b : Accessory) :
  agree a b -> agree (setBrightness value a) (setBrightness value b).
Proof.
  intros H. unfold setBrightness. apply agree_sendCommand.
  agree_split. destruct (_ =? _)%float; unfold agree; fields;
    repeat split; congruence.
Qed.

Lemma agree_then_catch (c : Command) (o o' : Outcome) (a b : Accessory) :
  agree a b -> agree (then_catch c o a) (then_catch c o' b).
Proof.
  intros H. destruct o, o'; cbn [then_catch];
    destruct (verbose a), (verbose b); exact H.
Qed.

Lemma agree_settle (i : nat) (o o' : Outcome) (a b : Accessory) :
  agree a b -> agree_option (settle i o a) (settle i o' b).
Proof.
  intros H. unfold settle.
  assert (Ei : inflight a = inflight b) by (agree_split; assumption).
  rewrite <- Ei. destruct (nth_error (inflight a) i) as [c|]; [|exact I].
  cbn [agree_option]. unfold finally. apply agree_runNextCommand.
  assert (G : agree (then_catch c o (set_inflight (drop_nth i (inflight a)) a))
                    (then_catch c o' (set_inflight (drop_nth i (inflight a)) b))).
  { apply agree_then_catch. agree_split. unfold agree. fields.
    repeat split; congruence. }
  destruct G as (? & ? & ? & ? & ? & ? & ? & ? & ?).
  unfold agree. fields. repeat split; congruence.
Qed.

Lemma agree_step (e e' : Event) (a b : Accessory) :
  agree a b -> forget_outcome e = forget_outcome e' ->
  agree_option (step a e) (step b e').
Proof.
  intros H F.
  destruct e, e'; cbn in F; try discriminate; inversion F; subst; cbn [step].
  - now apply agree_sendCommand.
  - now apply agree_addCommand.
  - now apply agree_runNextCommand.
  - now apply agree_setRotationSpeed.
  - now apply agree_setBrightness.
  - now apply agree_settle.
Qed.

Lemma agree_run (events : list Event) :
  forall events' a b,
    agree a b -> map forget_outcome events = map forget_outcome events' ->
    agree_option (run a events) (run b events').
Proof.
  induction events as [|e rest IH]; intros [|e' rest'] a b H F;
    cbn in F; try discriminate; [exact H|].
  injection F as Fe Fr. cbn [run].
  pose proof (agree_step e e' a b H Fe) as S.
  destruct (step a e) as [a1|], (step b e') as [b1|]; cbn in S;
    try contradiction; [|exact I]. now apply IH.
Qed.

End Independence.

(** What is sent does not depend on how requests end, nor on verbose
    logging. Two accessories configured with the same bridge host and
    device address that receive the same calls and SET events, with
    completions at the same points but with arbitrary outcomes, and with
    or without verbose logging, hand the same entries to the transport in
    the same order, and keep the same queue, flag and outstanding
    request. *)
Theorem dispatch_ignores_outcomes_and_verbosity
  (config config' : AccessoryConfig) (events events' : list Event)
  (a : Accessory) :
  cfg_rfbridge config = cfg_rfbridge config' ->
  cfg_remote config = cfg_remote config' ->
  map forget_outcome events = map forget_outcome events' ->
  run (constructor config) events = Some a ->
  exists a',
    run (constructor config') events' = Some a' /\
    requests a' = requests a /\ commandQueue a' = commandQueue a /\
    pendingCommand a' = pendingCommand a /\ inflight a' = inflight a.
Proof.
  intros Hb Hr F R.
  assert (H : agree (constructor config) (constructor config')).
  { unfold agree. cbn [constructor rfbridge remote fanSpeed lightBrightness
      pendingCommand commandQueue inflight requests timers].
    rewrite Hb, Hr. now repeat split. }
  pose proof (agree_run events events' _ _ H F) as G. rewrite R in G.
  destruct (run (constructor config') events') as [a'|]; [|contradiction].
  cbn in G. destruct G as (_ & _ & _ & _ & Hp & Hq & Hi & Hq' & _).
  exists a'. now repeat split.
Qed.

Lemma dispatch_ignores_outcomes_and_verbosity_witness :
  let quiet := sample_config in
  let loud := {| cfg_verbose := Some true; cfg_rfbridge := Some "bridge";
                 cfg_remote := Some "0" |} in
  let good := [CallSendCommand (JSNumber FAN_SPEED1);
               CallSendCommand (JSNumber LIGHT_ON); Settle 0 (Fulfilled "ok")] in
  let bad := [CallSendCommand (JSNumber FAN_SPEED1);
              CallSendCommand (JSNumber LIGHT_ON); Settle 0 (Rejected "ETIMEDOUT")] in
  let first := {| command := FAN_SPEED1;
                  targetUrl := target "bridge" "0" FAN_SPEED1 |} in
  let a := finally
             (then_catch first (Fulfilled "ok")
                (set_inflight []
                   (sendCommand (JSNumber LIGHT_ON)
                      (sendCommand (JSNumber FAN_SPEED1) (constructor quiet))))) in
  cfg_rfbridge quiet = cfg_rfbridge loud /\
  cfg_remote quiet = cfg_remote loud /\
  map forget_outcome good = map forget_outcome bad /\
  run (constructor quiet) good = Some a /\
  exists a', run (constructor loud) bad = Some a' /\ requests a' = requests a.
Proof.
  intros quiet loud good bad first a.
  assert (R : run (constructor quiet) good = Some a) by (vm_compute; reflexivity).
  do 3 (split; [reflexivity|]). split; [exact R|].
  destruct (dispatch_ignores_outcomes_and_verbosity
              quiet loud good bad a eq_refl eq_refl eq_refl R)
    as (a' & R' & Q & _).
  exists a'. split; [exact R' | exact Q].
Defined.

(* ================================================================= *)
(** * Properties of the SET and GET handlers *)

Section Levels.

(** A number that compares equal to zero is a zero, and selects the
    first entry of a table. *)
Lemma zero_is_integer (x : float) :
  (x =? 0)%float = true -> integer_of x = Some 0.
Proof.
  rewrite FloatAxioms.eqb_spec. unfold integer_of.
  change (Prim2SF 0) with (S754_zero false).
  destruct (Prim2SF x) as [s | s | | s m e]; cbn; try destruct s;
    intros H; try discriminate H; reflexivity.
Qed.

Lemma zero_table_index (len : nat) (x : float) :
  (x =? 0)%float = true -> table_index (S len) x = Some 0%nat.
Proof.
  intros H. unfold table_index. rewrite (zero_is_integer x H).
  cbn [Z.leb Z.compare andb]. rewrite (proj2 (Z.ltb_lt 0 _)) by lia. reflexivity.
Qed.

Lemma nonzero_of_table_index (len i : nat) (x : float) :
  table_index (S len) x = Some (S i) -> (x =? 0)%float = false.
Proof.
  intros H. destruct (x =? 0)%float eqn:E; [|reflexivity].
  rewrite (zero_table_index len x E) in H. discriminate.
Qed.

Lemma nonzero_of_no_index (len : nat) (x : float) :
  table_index (S len) x = None -> (x =? 0)%float = false.
Proof.
  intros H. destruct (x =? 0)%float eqn:E; [|reflexivity].
  rewrite (zero_table_index len x E) in H. discriminate.
Qed.

Lemma array_get_index (commands : list Z) (x : float) (i : nat) (c : Z) :
  table_index (List.length commands) x = Some i ->
  nth_error commands i = Some c ->
  array_get commands x = JSNumber c.
Proof. intros H N. unfold array_get. now rewrite H, N. Qed.

(** Log lines are never removed by a drain attempt. *)
Lemma logged_runNextCommand (e : LogEntry) (a : Accessory) :
  In e (logged a) -> In e (logged (runNextCommand a)).
Proof.
  intros H. unfold runNextCommand.
  destruct (negb (pendingCommand a)); [|exact H].
  destruct (pop (commandQueue a)) as [[x|] rest]; [|exact H].
  destruct (negb (test_mode _)); fields; [exact H|].
  apply in_or_app. now left.
Qed.

Lemma sendCommand_logs_queued (c : Z) (a : Accessory) :
  c <> -1 ->
  In (InfoQueued {| command := c; targetUrl := target (rfbridge a) (remote a) c |})
     (logged (sendCommand (JSNumber c) a)).
Proof.
  intros N. rewrite (sendCommand_valid c a N). unfold addCommand.
  apply logged_runNextCommand. fields. apply in_or_app. right. now left.
Qed.

(** Sending never touches the stored levels nor the timers. *)
Lemma levels_runNextCommand (a : Accessory) :
  fanSpeed (runNextCommand a) = fanSpeed a /\
  lightBrightness (runNextCommand a) = lightBrightness a /\
  timers (runNextCommand a) = timers a.
Proof.
  unfold runNextCommand.
  destruct (negb (pendingCommand a)); [|now repeat split].
  destruct (pop (commandQueue a)) as [[x|] rest]; [|now repeat split].
  destruct (negb (test_mode _)); now repeat split.
Qed.

Lemma levels_sendCommand (arg : JSValue) (a : Accessory) :
  fanSpeed (sendCommand arg a) = fanSpeed a /\
  lightBrightness (sendCommand arg a) = lightBrightness a /\
  timers (sendCommand arg a) = timers a.
Proof.
  unfold sendCommand.
  destruct (strict_eq_number _ _ || _); [now repeat split|].
  destruct arg; try (now repeat split); unfold addCommand;
    match goal with
    | |- context [runNextCommand ?b] =>
        destruct (levels_runNextCommand b) as (E1 & E2 & E3);
        rewrite E1, E2, E3; destruct (verbose a); now repeat split
    end.
Qed.

End Levels.

Section Tables.

Lemma table_index_bound (len i : nat) (x : float) :
  table_index len x = Some i -> (i < len)%nat.
Proof.
  unfold table_index. destruct (integer_of x) as [z|]; [|discriminate].
  destruct (0 <=? z) eqn:L; [|discriminate].
  destruct (z <? Z.of_nat len) eqn:U; [|discriminate].
  cbn. intros [= <-]. apply Z.leb_le in L. apply Z.ltb_lt in U. lia.
Qed.

Lemma table_lookup (commands : list Z) (x : float) (i : nat) :
  table_index (List.length commands) x = Some i ->
  exists c, nth_error commands i = Some c /\ In c commands /\
            array_get commands x = JSNumber c.
Proof.
  intros H. pose proof (table_index_bound _ _ _ H) as B.
  destruct (nth_error commands i) as [c|] eqn:N.
  - exists c. split; [reflexivity|]. split; [now apply nth_error_In in N|].
    now apply (array_get_index commands x i c).
  - apply nth_error_None in N. lia.
Qed.

Lemma handler_commands_valid (c : Z) :
  In c fan_commands \/ In c light_commands -> 0 <= c <= 1023.
Proof.
  intros [H | H]; cbv in H;
    repeat (destruct H as [<- | H]; [lia|]); contradiction.
Qed.

(** The stored level and the timers after a SET of level zero. *)
Lemma zero_level_state (speed brightness : float) (a : Accessory) :
  (speed / fanStep =? 0)%float = true ->
  (brightness / 12 =? 0)%float = true ->
  (fanSpeed (setRotationSpeed speed a) = fanSpeed a /\
   timers (setRotationSpeed speed a) = (timers a ++ [RevertRotationSpeed])%list) /\
  (lightBrightness (setBrightness brightness a) = lightBrightness a /\
   timers (setBrightness brightness a) = (timers a ++ [RevertBrightness])%list).
Proof.
  intros Hs Hb. unfold setRotationSpeed, setBrightness. rewrite Hs, Hb. split.
  - match goal with
    | |- context [sendCommand ?arg ?b] =>
        destruct (levels_sendCommand arg b) as (-> & _ & ->)
    end. now split.
  - match goal with
    | |- context [sendCommand ?arg ?b] =>
        destruct (levels_sendCommand arg b) as (_ & -> & ->)
    end. now split.
Qed.

End Tables.

(** A level of zero turns the device off and keeps the stored level: a
    RotationSpeed (Brightness) SET whose scaled value equals zero leaves
    [fanSpeed] ([lightBrightness]) as it was, schedules the revert
    callback, and sends Fan Off (Light Off). *)
Theorem zero_level_turns_off_and_keeps_level
  (speed brightness : float) (a : Accessory) :
  (speed / fanStep =? 0)%float = true ->
  (brightness / 12 =? 0)%float = true ->
  (setRotationSpeed speed a =
     sendCommand (JSNumber FAN_OFF) (setTimeout RevertRotationSpeed a) /\
   fanSpeed (setRotationSpeed speed a) = fanSpeed a /\
   timers (setRotationSpeed speed a) = (timers a ++ [RevertRotationSpeed])%list /\
   In (InfoQueued {| command := FAN_OFF;
                     targetUrl := target (rfbridge a) (remote a) FAN_OFF |})
      (logged (setRotationSpeed speed a))) /\
  (setBrightness brightness a =
     sendCommand (JSNumber LIGHT_OFF) (setTimeout RevertBrightness a) /\
   lightBrightness (setBrightness brightness a) = lightBrightness a /\
   timers (setBrightness brightness a) = (timers a ++ [RevertBrightness])%list /\
   In (InfoQueued {| command := LIGHT_OFF;
                     targetUrl := target (rfbridge a) (remote a) LIGHT_OFF |})
      (logged (setBrightness brightness a))).
Proof.
  intros Hs Hb. split.
  - assert (E : setRotationSpeed speed a =
                sendCommand (JSNumber FAN_OFF) (setTimeout RevertRotationSpeed a)).
    { unfold setRotationSpeed. rewrite Hs.
      now rewrite (array_get_index fan_commands _ 0 FAN_OFF (zero_table_index 3 _ Hs)). }
    split; [exact E|]. rewrite E.
    destruct (levels_sendCommand (JSNumber FAN_OFF) (setTimeout RevertRotationSpeed a))
      as (E1 & _ & E3).
    split; [exact E1|]. split; [exact E3|].
    apply (sendCommand_logs_queued FAN_OFF (setTimeout RevertRotationSpeed a)).
    discriminate.
  - assert (E : setBrightness brightness a =
                sendCommand (JSNumber LIGHT_OFF) (setTimeout RevertBrightness a)).
    { unfold setBrightness. rewrite Hb.
      now rewrite (array_get_index light_commands _ 0 LIGHT_OFF (zero_table_index 8 _ Hb)). }
    split; [exact E|]. rewrite E.
    destruct (levels_sendCommand (JSNumber LIGHT_OFF) (setTimeout RevertBrightness a))
      as (_ & E2 & E3).
    split; [exact E2|]. split; [exact E3|].
    apply (sendCommand_logs_queued LIGHT_OFF (setTimeout RevertBrightness a)).
    discriminate.
Qed.

Lemma zero_level_turns_off_and_keeps_level_witness :
  let a := constructor sample_config in
  (0 / fanStep =? 0)%float = true /\ (0 / 12 =? 0)%float = true /\
  fanSpeed (setRotationSpeed 0 a) = 1%float /\
  dispatched (setRotationSpeed 0 a) = [FAN_OFF].
Proof.
  intros a. split; [reflexivity|]. split; [reflexivity|].
  destruct (zero_level_turns_off_and_keeps_level 0 0 a eq_refl eq_refl)
    as ((E & F & _) & _).
  split; [exact F|]. rewrite E. reflexivity.
Defined.

(** A level of the table is stored and its command is queued: a
    RotationSpeed (Brightness) SET whose scaled value is an index of the
    command table other than 0 stores the scaled value in [fanSpeed]
    ([lightBrightness]), schedules no timer, and queues the command the
    table has at that index, which is a 10-bit code. *)
Theorem table_level_is_stored_and_sent
  (speed brightness : float) (i j : nat) (a : Accessory) :
  table_index (List.length fan_commands) (speed / fanStep) = Some (S i) ->
  table_index (List.length light_commands) (brightness / 12) = Some (S j) ->
  (exists c,
     nth_error fan_commands (S i) = Some c /\ 0 <= c <= 1023 /\
     fanSpeed (setRotationSpeed speed a) = (speed / fanStep)%float /\
     timers (setRotationSpeed speed a) = timers a /\
     In (InfoQueued {| command := c;
                       targetUrl := target (rfbridge a) (remote a) c |})
        (logged (setRotationSpeed speed a))) /\
  (exists c,
     nth_error light_commands (S j) = Some c /\ 0 <= c <= 1023 /\
     lightBrightness (setBrightness brightness a) = (brightness / 12)%float /\
     timers (setBrightness brightness a) = timers a /\
     In (InfoQueued {| command := c;
                       targetUrl := target (rfbridge a) (remote a) c |})
        (logged (setBrightness brightness a))).
Proof.
  intros Hs Hb. split.
  - destruct (table_lookup fan_commands _ _ Hs) as (c & N & I & G).
    pose proof (handler_commands_valid c (or_introl I)) as V.
    exists c. split; [exact N|]. split; [exact V|].
    unfold setRotationSpeed.
    rewrite (nonzero_of_table_index 3 i _ Hs), G.
    set (a1 := log _ (set_fanSpeed _ a)).
    destruct (levels_sendCommand (JSNumber c) a1) as (E1 & _ & E3).
    split; [exact E1|]. split; [exact E3|].
    apply (sendCommand_logs_queued c a1). lia.
  - destruct (table_lookup light_commands _ _ Hb) as (c & N & I & G).
    pose proof (handler_commands_valid c (or_intror I)) as V.
    exists c. split; [exact N|]. split; [exact V|].
    unfold setBrightness.
    rewrite (nonzero_of_table_index 8 j _ Hb), G.
    set (a1 := log _ (set_lightBrightness _ a)).
    destruct (levels_sendCommand (JSNumber c) a1) as (_ & E2 & E3).
    split; [exact E2|]. split; [exact E3|].
    apply (sendCommand_logs_queued c a1). lia.
Qed.

Lemma table_level_is_stored_and_sent_witness :
  let a := constructor sample_config in
  table_index (List.length fan_commands) (66.66 / fanStep) = Some 2%nat /\
  table_index (List.length light_commands) (96 / 12) = Some 8%nat /\
  exists c, nth_error fan_commands 2 = Some c /\ 0 <= c <= 1023.
Proof.
  intros a. split; [reflexivity|]. split; [reflexivity|].
  destruct (table_level_is_stored_and_sent 66.66 96 1 7 a eq_refl eq_refl)
    as ((c & N & V & _) & _).
  exists c. split; [exact N | exact V].
Defined.

(** Turning the fan on replays the stored speed. After a RotationSpeed
    SET of a non-zero level, an Active SET with [true] looks the same
    level up again: it sends the command of that level a second time, or,
    when the level is no index of the table (100 percent gives
    3.0003...), sends nothing at all although [fanOn] becomes true. An
    Active SET with [false] always queues Fan Off. *)
Theorem active_on_replays_stored_speed (speed : float) (p : Plugin) :
  (speed / fanStep =? 0)%float = false ->
  let p1 := on_core (setRotationSpeed speed) p in
  core (setActive true p1)
    = sendCommand (array_get fan_commands (speed / fanStep)) (core p1) /\
  fanOn (setActive true p1) = true /\
  (table_index (List.length fan_commands) (speed / fanStep) = None ->
     same_dispatch_state (core p) (core p1) /\
     same_dispatch_state (core p) (core (setActive true p1))) /\
  In (InfoQueued {| command := FAN_OFF;
                    targetUrl := target (rfbridge (core p)) (remote (core p)) FAN_OFF |})
     (logged (core (setActive false p))).
Proof.
  intros Z p1.
  assert (F : fanSpeed (core p1) = (speed / fanStep)%float).
  { unfold p1, on_core. cbn [core]. unfold setRotationSpeed. rewrite Z.
    now destruct (levels_sendCommand
                    (array_get fan_commands (speed / fanStep))
                    (log (InfoSetFanSpeed (speed / fanStep))
                       (set_fanSpeed (speed / fanStep) (core p)))) as (-> & _). }
  split; [unfold setActive; cbn [core]; now rewrite F|].
  split; [reflexivity|]. split.
  - intros N.
    assert (U : array_get fan_commands (speed / fanStep) = JSUndefined)
      by (unfold array_get; now rewrite N).
    assert (S1 : same_dispatch_state (core p) (core p1)).
    { unfold p1, on_core. cbn [core]. unfold setRotationSpeed.
      rewrite Z, U, sendCommand_invalid by (right; discriminate).
      now repeat split. }
    split; [exact S1|].
    unfold setActive. cbn [core]. rewrite F, U.
    now rewrite sendCommand_invalid by (right; discriminate).
  - unfold setActive. cbn [core].
    apply (sendCommand_logs_queued FAN_OFF (core p)). discriminate.
Qed.

Lemma active_on_replays_stored_speed_witness :
  let p := new_plugin sample_config in
  let p1 := on_core (setRotationSpeed 100) p in
  (100 / fanStep =? 0)%float = false /\
  fanOn (setActive true p1) = true /\
  dispatched (core (setActive true p1)) = [].
Proof.
  intros p p1. split; [reflexivity|].
  destruct (active_on_replays_stored_speed 100 p eq_refl) as (_ & F & N & _).
  split; [exact F|].
  destruct (N eq_refl) as (_ & (_ & _ & _ & R)).
  unfold dispatched. fold p1 in R. rewrite R. reflexivity.
Defined.

(** GET reports what was SET, at every level HomeKit can set: after a
    RotationSpeed SET of one to three steps of 33.33 the stored speed is
    that number of steps and RotationSpeed GET gives the value back; the
    same holds for Brightness with one to eight steps of 12. *)
Theorem get_reports_what_was_set (ks kl : float) (p : Plugin) :
  In ks fan_levels -> In kl light_levels ->
  fanSpeed (core (on_core (setRotationSpeed (ks * fanStep)) p)) = ks /\
  fst (getRotationSpeed (on_core (setRotationSpeed (ks * fanStep)) p))
    = (ks * fanStep)%float /\
  lightBrightness (core (on_core (setBrightness (kl * 12)) p)) = kl /\
  fst (getBrightness (on_core (setBrightness (kl * 12)) p)) = (kl * 12)%float.
Proof.
  intros Hs Hl.
  assert (S : fanSpeed (core (on_core (setRotationSpeed (ks * fanStep)) p)) = ks).
  { cbn [on_core core]. unfold setRotationSpeed.
    match goal with
    | |- fanSpeed (sendCommand ?arg ?b) = _ =>
        destruct (levels_sendCommand arg b) as (-> & _)
    end.
    cbv in Hs. repeat (destruct Hs as [<- | Hs]; [reflexivity|]). contradiction. }
  assert (L : lightBrightness (core (on_core (setBrightness (kl * 12)) p)) = kl).
  { cbn [on_core core]. unfold setBrightness.
    match goal with
    | |- lightBrightness (sendCommand ?arg ?b) = _ =>
        destruct (levels_sendCommand arg b) as (_ & -> & _)
    end.
    cbv in Hl. repeat (destruct Hl as [<- | Hl]; [reflexivity|]). contradiction. }
  split; [exact S|]. split; [unfold getRotationSpeed; cbn [fst]; now rewrite S|].
  split; [exact L|]. unfold getBrightness. cbn [fst]. now rewrite L.
Qed.

Lemma get_reports_what_was_set_witness :
  let p := new_plugin sample_config in
  In 3%float fan_levels /\ In 8%float light_levels /\
  fst (getRotationSpeed (on_core (setRotationSpeed (3 * fanStep)) p))
    = (3 * fanStep)%float.
Proof.
  intros p.
  assert (Hs : In 3%float fan_levels) by (cbv; tauto).
  assert (Hl : In 8%float light_levels) by (cbv; tauto).
  split; [exact Hs|]. split; [exact Hl|].
  exact (proj1 (proj2 (get_reports_what_was_set 3 8 p Hs Hl))).
Defined.

(** The revert callbacks. When the timer scheduled by a zero-level SET
    fires, the RotationSpeed callback posts the value RotationSpeed GET
    reports and Active false; the Brightness callback posts the stored
    level itself (line 253 has no factor 12) and On false, which for each
    of the levels one to eight is not the value Brightness GET reports. *)
Theorem revert_callbacks_post_stored_levels
  (speed brightness kl : float) (p : Plugin) :
  timers (core p) = [] ->
  (speed / fanStep =? 0)%float = true ->
  (brightness / 12 =? 0)%float = true ->
  In kl light_levels -> lightBrightness (core p) = kl ->
  (exists p',
     fire_timer (on_core (setRotationSpeed speed) p)
       = Some ([UpdateRotationSpeed (fst (getRotationSpeed p)); UpdateActive false], p')
     /\ timers (core p') = []) /\
  (exists p',
     fire_timer (on_core (setBrightness brightness) p)
       = Some ([UpdateBrightness kl; UpdateOn false], p')
     /\ timers (core p') = []) /\
  fst (getBrightness p) = (kl * 12)%float /\
  (kl =? kl * 12)%float = false.
Proof.
  intros T Hs Hb Hl L.
  destruct (zero_level_state speed brightness (core p) Hs Hb)
    as ((Fs & Ts) & (Fb & Tb)).
  rewrite T in Ts, Tb. cbn [app] in Ts, Tb. split; [|split; [|split]].
  - unfold fire_timer, callback, getRotationSpeed, on_core. cbn [core fst].
    rewrite Ts, Fs. eexists. split; reflexivity.
  - unfold fire_timer, callback, on_core. cbn [core].
    rewrite Tb, Fb, L. eexists. split; reflexivity.
  - unfold getBrightness. cbn [fst]. now rewrite L.
  - cbv in Hl. repeat (destruct Hl as [<- | Hl]; [reflexivity|]). contradiction.
Qed.

Lemma revert_callbacks_post_stored_levels_witness :
  let p := new_plugin sample_config in
  timers (core p) = [] /\
  (0 / fanStep =? 0)%float = true /\ (0 / 12 =? 0)%float = true /\
  In 8%float light_levels /\ lightBrightness (core p) = 8%float /\
  fst (getBrightness p) = 96%float /\
  exists p',
    fire_timer (on_core (setBrightness 0) p)
      = Some ([UpdateBrightness 8; UpdateOn false], p').
Proof.
  intros p.
  assert (Hl : In 8%float light_levels) by (cbv; tauto).
  repeat (split; [reflexivity|]). split; [exact Hl|]. split; [reflexivity|].
  destruct (revert_callbacks_post_stored_levels 0 0 8 p eq_refl eq_refl eq_refl Hl eq_refl)
    as (_ & (p' & F & _) & G & _).
  split; [rewrite G; reflexivity|]. exists p'. exact F.
Defined.

(** Only binary digits are encoded. In a device address of at most 40
    characters every [0] and [1] becomes a two-character token, and every
    other character, the decimal digits 2 to 9 included, is copied as it
    is: the room block has 84 characters less one for each such
    character, so it has its full length exactly for binary addresses. *)
Theorem room_copies_other_characters (address : string) :
  (String.length address <= 40)%nat ->
  (String.length (room address) + count_other address = 84)%nat /\
  (String.length (room address) = 84%nat <-> is_binary address = true).
Proof.
  intros L.
  assert (G : forall s, (String.length (substitute "82" "A0" s) + count_other s
                         = 2 * String.length s)%nat).
  { induction s as [|c s IH]; [reflexivity|].
    cbn [substitute count_other String.length]. rewrite length_append.
    destruct (Ascii.eqb c "0"); [cbn; lia|].
    destruct (Ascii.eqb c "1"); cbn; lia. }
  assert (F : forall n s, count_other (fill "0" n ++ s) = count_other s).
  { induction n as [|n IH]; intros s; [reflexivity | exact (IH s)]. }
  assert (B : forall s, is_binary s = true <-> count_other s = 0%nat).
  { induction s as [|c s IH]; [now split|].
    cbn [is_binary count_other].
    destruct (Ascii.eqb c "0" || Ascii.eqb c "1"); cbn [andb];
      [exact IH | split; discriminate]. }
  assert (E : (String.length (room address) + count_other address = 84)%nat).
  { rewrite room_as_one_pass. unfold spec_room_block.
    rewrite !length_append. cbn [String.length].
    pose proof (G (zero_padded 40 address)) as H.
    rewrite (length_zero_padded 40 address L) in H.
    unfold zero_padded in H at 2. rewrite F in H. lia. }
  split; [exact E|]. rewrite B. lia.
Qed.

Lemma room_copies_other_characters_witness :
  (String.length "1234" <= 40)%nat /\
  String.length (room "1234") = 81%nat /\ count_other "1234" = 3%nat.
Proof.
  assert (L : (String.length "1234" <= 40)%nat) by (cbn; lia).
  split; [exact L|].
  pose proof (proj1 (room_copies_other_characters "1234" L)) as E.
  split; [|reflexivity]. change (count_other "1234") with 3%nat in E. lia.
Defined.

(** Which configurations run in test mode: those in which the bridge
    host or the device address is absent, empty or equal to ["test"];
    and the constructor logs a warning for exactly the absent or empty
    fields. *)
Theorem constructor_enters_test_mode_iff (config : AccessoryConfig) :
  (test_mode (constructor config) = true <->
     truthy (cfg_rfbridge config) = false \/ cfg_rfbridge config = Some "test" \/
     truthy (cfg_remote config) = false \/ cfg_remote config = Some "test") /\
  (In (WarnMissingConfig "rfbridge") (logged (constructor config)) <->
     truthy (cfg_rfbridge config) = false) /\
  (In (WarnMissingConfig "remote") (logged (constructor config)) <->
     truthy (cfg_remote config) = false).
Proof.
  assert (O : forall o, String.eqb (or_else o "test") "test" = true <->
                        truthy o = false \/ o = Some "test").
  { intros [[|c s]|]; unfold or_else, truthy.
    - split; [now left | reflexivity].
    - rewrite String.eqb_eq. split; [intros ->; now right|].
      intros [H | H]; [discriminate | congruence].
    - split; [now left | reflexivity]. }
  destruct config as [v rb rm]. unfold test_mode.
  cbn [constructor rfbridge remote logged cfg_rfbridge cfg_remote].
  split; [|split].
  - rewrite orb_true_iff, !O. tauto.
  - destruct (truthy rb), (truthy rm); cbn; split; intros H;
      try discriminate; try tauto;
      repeat (destruct H as [H | H]; try discriminate H); try contradiction.
  - destruct (truthy rb), (truthy rm); cbn; split; intros H;
      try discriminate; try tauto;
      repeat (destruct H as [H | H]; try discriminate H); try contradiction.
Qed.

Section Orders.

(** An enqueue while a request is outstanding, then the completion of
    that request: the new entry is sent, the older ones stay. *)
Lemma enqueue_then_settle (c : Z) (u : string) (o : Outcome)
      (x : Command) (a : Accessory) :
  single_flight a = true -> inflight a = [x] ->
  exists a',
    run a [CallAddCommand c u; Settle 0 o] = Some a' /\
    single_flight a' = true /\
    inflight a' = [{| command := c; targetUrl := u |}] /\
    requests a' = (requests a ++ [{| command := c; targetUrl := u |}])%list /\
    commandQueue a' = commandQueue a.
Proof.
  intros H I.
  destruct (busy_addCommand c u a H) as (R1 & I1 & Q1); [now rewrite I|].
  pose proof (single_flight_addCommand c u a H) as H1. rewrite I in I1.
  destruct (settle_outstanding o x _ H1 I1) as (a' & S & H' & _ & N).
  destruct (N _ _ Q1) as (_ & I' & R' & Q').
  exists a'. cbn [run step]. rewrite S. repeat split; congruence.
Qed.


Lemma run_app (es1 es2 : list Event) :
  forall a a1, run a es1 = Some a1 -> run a (es1 ++ es2) = run a1 es2.
Proof.
  induction es1 as [|e es1 IH]; intros a a1 R; cbn in *.
  - now injection R as <-.
  - destruct (step a e) as [b|]; [now apply IH | discriminate].
Qed.

Lemma starvation (c : Z) (u : string) (o : Outcome) (n : nat) :
  forall (a : Accessory) (x : Command),
    single_flight a = true -> inflight a = [x] ->
    exists a',
      run a (List.concat (repeat [CallAddCommand c u; Settle 0 o] n)) = Some a' /\
      commandQueue a' = commandQueue a /\
      requests a' =
        (requests a ++ repeat {| command := c; targetUrl := u |} n)%list.
Proof.
  induction n as [|n IH]; intros a x H I.
  - exists a. cbn. now rewrite List.app_nil_r.
  - destruct (enqueue_then_settle c u o x a H I) as (a1 & R1 & H1 & I1 & Q1 & K1).
    destruct (IH a1 _ H1 I1) as (a' & R' & K' & Q').
    exists a'. cbn [repeat List.concat].
    rewrite (run_app _ _ a a1 R1). split; [exact R'|].
    split; [congruence|]. rewrite Q', Q1, <- List.app_assoc. reflexivity.
Qed.


End Orders.

(** The oldest entry can wait for ever. While a request is outstanding
    and an entry waits in the queue, any number of rounds "a new command
    is enqueued, the outstanding request completes" sends the new
    commands one after the other and leaves the queue, with the waiting
    entry, as it was. *)
Theorem oldest_entry_can_wait_forever
  (config : AccessoryConfig) (events : list Event) (a : Accessory)
  (x waiting : Command) (c : Z) (u : string) (o : Outcome) (n : nat) :
  run (constructor config) events = Some a ->
  inflight a = [x] -> commandQueue a = [waiting] ->
  exists a',
    run a (List.concat (repeat [CallAddCommand c u; Settle 0 o] n)) = Some a' /\
    commandQueue a' = [waiting] /\
    requests a' = (requests a ++ repeat {| command := c; targetUrl := u |} n)%list.
Proof.
  intros R I Q. destruct (reachable_invariant _ _ _ R) as (H & _ & _).
  destruct (starvation c u o n a x H I) as (a' & R' & Q' & K').
  exists a'. split; [exact R'|]. split; [congruence | exact K'].
Qed.

Lemma oldest_entry_can_wait_forever_witness :
  let a := sendCommand (JSNumber LIGHT_ON)
             (sendCommand (JSNumber FAN_SPEED1) (constructor sample_config)) in
  let first := {| command := FAN_SPEED1; targetUrl := target "bridge" "0" FAN_SPEED1 |} in
  let waiting := {| command := LIGHT_ON; targetUrl := target "bridge" "0" LIGHT_ON |} in
  run (constructor sample_config)
      [CallSendCommand (JSNumber FAN_SPEED1); CallSendCommand (JSNumber LIGHT_ON)]
    = Some a /\
  inflight a = [first] /\ commandQueue a = [waiting] /\
  exists a',
    run a (List.concat (repeat [CallAddCommand FAN_SPEED3 "u"; Settle 0 (Fulfilled "ok")] 5))
      = Some a' /\
    commandQueue a' = [waiting].
Proof.
  intros a first waiting. repeat (split; [reflexivity|]).
  destruct (oldest_entry_can_wait_forever
              sample_config
              [CallSendCommand (JSNumber FAN_SPEED1); CallSendCommand (JSNumber LIGHT_ON)]
              a first waiting FAN_SPEED3 "u" (Fulfilled "ok") 5
              eq_refl eq_refl eq_refl) as (a' & R' & Q' & _).
  exists a'. split; [exact R' | exact Q'].
Defined.



(** The power handlers. An Active SET and an On SET never change the
    stored speed and brightness; an On SET always queues Light On or
    Light Off, whatever the stored brightness; and both record the new
    value in [fanOn] and [lightOn]. *)
Theorem power_handlers_keep_levels (value : bool) (p : Plugin) :
  fanSpeed (core (setActive value p)) = fanSpeed (core p) /\
  lightBrightness (core (setActive value p)) = lightBrightness (core p) /\
  fanSpeed (core (setOn value p)) = fanSpeed (core p) /\
  lightBrightness (core (setOn value p)) = lightBrightness (core p) /\
  fanOn (setActive value p) = value /\ lightOn (setOn value p) = value /\
  fst (getActive (setActive value p)) = value /\
  fst (getOn (setOn value p)) = value /\
  In (InfoQueued
        {| command := if value then LIGHT_ON else LIGHT_OFF;
           targetUrl := target (rfbridge (core p)) (remote (core p))
                          (if value then LIGHT_ON else LIGHT_OFF) |})
     (logged (core (setOn value p))).
Proof.
  unfold setActive, setOn, getActive, getOn. cbn [core fanOn lightOn fst].
  repeat match goal with
         | |- _ /\ _ => split
         end; try reflexivity;
    try (match goal with
         | |- _ (sendCommand ?arg ?b) = _ =>
             destruct (levels_sendCommand arg b) as (E1 & E2 & _); assumption
         end).
  apply (sendCommand_logs_queued _ (core p)). now destruct value.
Qed.

Section TestModeOrder.

Lemma in_order_log (e : LogEntry) (a : Accessory) :
  queued_of [e] = [] -> test_sent_of [e] = [] ->
  test_sent_of (logged a) = queued_of (logged a) ->
  test_sent_of (logged (log e a)) = queued_of (logged (log e a)).
Proof.
  intros Q T H. fields.
  now rewrite queued_of_app, test_sent_of_app, Q, T, H.
Qed.

Lemma in_order_addCommand (c : Z) (url : string) (a : Accessory) :
  invariant a -> test_mode a = true ->
  test_sent_of (logged a) = queued_of (logged a) ->
  test_sent_of (logged (addCommand c url a)) = queued_of (logged (addCommand c url a)).
Proof.
  intros (H & D & _) T J.
  apply single_flight_cases in H as [[P _] | (_ & T' & _)]; [|congruence].
  destruct (addCommand_test_mode c url a P (D P) T) as (_ & _ & _ & _ & ->).
  rewrite queued_of_app, test_sent_of_app, J. reflexivity.
Qed.

Lemma in_order_sendCommand (arg : JSValue) (a : Accessory) :
  invariant a -> test_mode a = true ->
  test_sent_of (logged a) = queued_of (logged a) ->
  test_sent_of (logged (sendCommand arg a)) = queued_of (logged (sendCommand arg a)).
Proof.
  intros H T J. unfold sendCommand.
  destruct (strict_eq_number _ _ || _); [assumption|].
  destruct arg; try assumption; destruct (verbose a);
    apply in_order_addCommand; trivial; now apply in_order_log.
Qed.

Lemma in_order_step (e : Event) (a a' : Accessory) :
  invariant a -> test_mode a = true ->
  test_sent_of (logged a) = queued_of (logged a) ->
  step a e = Some a' ->
  test_sent_of (logged a') = queued_of (logged a').
Proof.
  intros H T J S. destruct e as [arg | c url | | value | value | i o]; cbn in S.
  - injection S as <-. now apply in_order_sendCommand.
  - injection S as <-. now apply in_order_addCommand.
  - injection S as <-. destruct H as (H & D & _).
    apply single_flight_cases in H as [[P _] | (_ & T' & _)]; [|congruence].
    now rewrite (runNextCommand_empty a (D P)).
  - injection S as <-. unfold setRotationSpeed.
    destruct (_ =? _)%float; apply in_order_sendCommand; trivial.
    now apply in_order_log.
  - injection S as <-. unfold setBrightness.
    destruct (_ =? _)%float; apply in_order_sendCommand; trivial.
    now apply in_order_log.
  - destruct H as (H & _).
    destruct (settle_inversion i o a a' H S) as (c & _ & _ & _ & T' & _).
    congruence.
Qed.

Lemma in_order_run (events : list Event) :
  forall a a',
    invariant a -> test_mode a = true ->
    test_sent_of (logged a) = queued_of (logged a) ->
    run a events = Some a' ->
    test_sent_of (logged a') = queued_of (logged a').
Proof.
  induction events as [|e rest IH]; intros a a' H T J R; cbn in R.
  - now injection R as <-.
  - destruct (step a e) as [a1|] eqn:S; [|discriminate].
    apply (IH a1 a'); trivial.
    + exact (invariant_step e a a1 H S).
    + rewrite (test_mode_step e a a1 S). exact T.
    + exact (in_order_step e a a1 H T J S).
Qed.

End TestModeOrder.

(** Test mode keeps the order. When test mode is active, the entries
    logged as sent in test mode are the entries logged as queued, in the
    same order: each is "sent" by its own enqueue. No request is ever
    outstanding, so no completion can occur. *)
Theorem test_mode_sends_in_queue_order
  (config : AccessoryConfig) (events : list Event) (a : Accessory) :
  selects_test_mode (cfg_rfbridge config) || selects_test_mode (cfg_remote config)
    = true ->
  run (constructor config) events = Some a ->
  test_sent_of (logged a) = queued_of (logged a) /\
  (forall i o, settle i o a = None).
Proof.
  intros C R. split.
  - apply (in_order_run events (constructor config) a); trivial.
    + apply invariant_constructor.
    + now apply test_mode_constructor.
    + cbn [constructor logged].
      destruct (truthy (cfg_rfbridge config)), (truthy (cfg_remote config));
        reflexivity.
  - intros i o. destruct (settle i o a) as [a'|] eqn:S; [|reflexivity].
    destruct (reachable_invariant _ _ _ R) as (H & _).
    destruct (settle_inversion i o a a' H S) as (c & _ & _ & _ & T' & _).
    rewrite (test_mode_run events _ _ R), (test_mode_constructor config C) in T'.
    discriminate.
Qed.

Lemma test_mode_sends_in_queue_order_witness :
  let config := {| cfg_verbose := Some true; cfg_rfbridge := Some "bridge";
                   cfg_remote := None |} in
  let events := [CallSendCommand (JSNumber FAN_SPEED1);
                 CallSendCommand (JSNumber LIGHT_ON)] in
  let a := sendCommand (JSNumber LIGHT_ON)
             (sendCommand (JSNumber FAN_SPEED1) (constructor config)) in
  selects_test_mode (cfg_rfbridge config) || selects_test_mode (cfg_remote config)
    = true /\
  run (constructor config) events = Some a /\
  map command (test_sent_of (logged a)) = [FAN_SPEED1; LIGHT_ON].
Proof.
  intros config events a. split; [reflexivity|]. split; [reflexivity|].
  rewrite (proj1 (test_mode_sends_in_queue_order config events a eq_refl eq_refl)).
  vm_compute. reflexivity.
Defined.
